(** * Roadside-ditch extraction notebook: thresholding, masking and fusion

    A shallow embedding of the array computations of [01_wbt_eda.ipynb]:
    the nodata substitution, the four "dynamic threshold" cells
    (standard deviation, percentile, local adaptive, k-means), the
    comparison that turns a threshold into a 0/1 mask, and the
    multiplication of the thresholded raster by the road mask.

    Numbers.  A raster sample is either NaN or a finite value.  In the
    cells, finite values are real numbers and arithmetic on them is
    exact.  This idealisation serves what does not depend on rounding:
    the comparisons with a threshold, the NaN cases, the shapes, the
    exceptions, and the order and the effects of the statements.  It
    does not give the numbers numpy returns: the mean, the standard
    deviation and the percentile are computed in IEEE 754 binary64,
    every operation rounded, and can overflow.  What the two global
    thresholds are as numbers is stated on module [binary64], which
    follows the same numpy code with the rounded arithmetic.

    Library calls.  The notebook is a script over numpy, scikit-image and
    scikit-learn.  Each library function it calls is modelled after the
    behaviour of that function for the arguments the notebook passes;
    the modules [np], [ndimage], [skimage] and [sklearn] hold these
    models, and the notebook cells are written on top of them.  The
    iteration of k-means (seeding and Lloyd's algorithm) is left as a
    parameter.

    State.  The cells are programs in a state and exception monad.  The
    state is the notebook's global variables and a heap of array
    objects, so that the one statement that writes into an array
    ([dfme_data[dfme_data == src.nodata] = np.nan]) is an update of the
    object and every other statement allocates.  Reading and writing
    raster files is outside the model: a raster is given by its band
    and its nodata value. *)

From Stdlib Require Import Reals Lra Lia List ZArith Bool Arith.
From Stdlib Require Import Sorting.Permutation Sorting.Sorted.
From Stdlib Require SpecFloat.
Import ListNotations.

Local Open Scope R_scope.

(** ** Samples *)

Inductive float : Type :=
| NaN : float
| Fin (r : R) : float.

Definition fadd (x y : float) : float :=
  match x, y with
  | Fin a, Fin b => Fin (a + b)
  | _, _ => NaN
  end.

Definition fsub (x y : float) : float :=
  match x, y with
  | Fin a, Fin b => Fin (a - b)
  | _, _ => NaN
  end.

Definition fmul (x y : float) : float :=
  match x, y with
  | Fin a, Fin b => Fin (a * b)
  | _, _ => NaN
  end.

Definition fsqrt (x : float) : float :=
  match x with
  | Fin a => Fin (sqrt a)
  | NaN => NaN
  end.

(** IEEE comparisons: every ordered comparison with NaN is false, and
    NaN is not equal to anything. *)
Definition flt (x y : float) : bool :=
  match x, y with
  | Fin a, Fin b => if Rlt_dec a b then true else false
  | _, _ => false
  end.

Definition feq (x y : float) : bool :=
  match x, y with
  | Fin a, Fin b => if Req_dec_T a b then true else false
  | _, _ => false
  end.

(** ** Two-dimensional arrays, row major *)

Definition ndarray (A : Type) : Type := list (list A).

Definition shape {A} (a : ndarray A) : nat * nat :=
  (length a, length (hd [] a)).

(** All rows have the same length. *)
Definition rectangular {A} (a : ndarray A) : Prop :=
  forall row, In row a -> length row = snd (shape a).

Definition ravel {A} (a : ndarray A) : list A := concat a.

Definition amap {A B} (f : A -> B) (a : ndarray A) : ndarray B :=
  map (map f) a.

(** [a[i, j]] *)
Definition item {A} (a : ndarray A) (i j : nat) : option A :=
  match nth_error a i with
  | Some row => nth_error row j
  | None => None
  end.

Fixpoint zip_with {A B C} (f : A -> B -> C) (l : list A) (m : list B) : list C :=
  match l, m with
  | x :: l', y :: m' => f x y :: zip_with f l' m'
  | _, _ => []
  end.

Definition sum (l : list R) : R := fold_right Rplus 0 l.

Definition fsum (l : list float) : float := fold_right fadd (Fin 0) l.

(** The [h] by [w] array whose entry at [(i, j)] is [f i j]. *)
Definition tabulate {A} (h w : nat) (f : nat -> nat -> A) : ndarray A :=
  map (fun i => map (f i) (seq 0 w)) (seq 0 h).

(** ** Python exceptions raised by the calls of the notebook *)

Inductive reason : Type :=
| not_broadcastable      (* operands could not be broadcast together *)
| percentile_range       (* Percentiles must be in the range [0, 100] *)
| block_size_even        (* block_size must be odd *)
| sigma_negative         (* Sigma values less than zero are not valid *)
| no_samples             (* Found array with 0 sample(s) *)
| too_few_samples        (* n_samples should be >= n_clusters *)
| invalid_n_clusters     (* n_clusters must be an int in the range [1, inf) *)
| empty_sequence.        (* min() arg is an empty sequence *)

Inductive exn : Type :=
| ValueError (why : reason)
| NameError.             (* a notebook variable read before any cell set it *)

Definition result (A : Type) : Type := (exn + A)%type.

(** ** numpy *)

Module np.

Definition isnan (x : float) : bool :=
  match x with NaN => true | Fin _ => false end.

(** [a < t] with a scalar [t], and [a < b] with an array of the same
    shape. *)
Definition less_scalar (a : ndarray float) (t : float) : ndarray bool :=
  amap (fun x => flt x t) a.

Definition less (a b : ndarray float) : ndarray bool :=
  zip_with (zip_with flt) a b.

(** [a == v] where [v] is [src.nodata]: a float, or [None], which
    compares unequal to every sample. *)
Definition equal_scalar (a : ndarray float) (v : option float) : ndarray bool :=
  amap (fun x => match v with Some s => feq x s | None => false end) a.

(** [b.astype("uint8")] on a boolean array. *)
Definition astype_uint8 (b : ndarray bool) : ndarray Z :=
  amap (fun c : bool => if c then 1%Z else 0%Z) b.

(** [_replace_nan(a, 0)]: the samples with NaN replaced by 0, and the
    mask of the replaced positions. *)
Definition replace_nan (a : list float) : list R * list bool :=
  (map (fun x => match x with NaN => 0 | Fin r => r end) a, map isnan a).

Definition count_false (mask : list bool) : nat :=
  length (filter negb mask).

(** [np.nanmean(a)]: the sum of the NaN-free copy divided by the
    number of non-NaN entries; 0/0 (no such entry) is NaN.  The sum and
    the quotient are exact here; [binary64.nanmean] has the rounded
    ones. *)
Definition nanmean (a : list float) : float :=
  let (arr, mask) := replace_nan a in
  let cnt := count_false mask in
  let tot := sum arr in
  if (cnt =? 0)%nat then NaN else Fin (tot / INR cnt).

(** [np.nanvar(a, ddof)]: deviations from the mean, zeroed at the
    masked positions, squared, summed and divided by [cnt - ddof];
    NaN when [cnt - ddof <= 0].  Exact here, without the rounding, the
    overflow and the underflow of the squares; [binary64.nanvar] has
    them. *)
Definition nanvar (ddof : nat) (a : list float) : float :=
  let (arr, mask) := replace_nan a in
  let cnt := count_false mask in
  if (cnt <=? ddof)%nat then NaN
  else
    let avg := sum arr / INR cnt in
    let dev := zip_with (fun x (m : bool) => if m then 0 else x - avg) arr mask in
    let sqr := map (fun d => d * d) dev in
    Fin (sum sqr / (INR cnt - INR ddof)).

(** [np.nanstd(a)] with the default [ddof=0]. *)
Definition nanstd (a : list float) : float := fsqrt (nanvar 0 a).

(** [a[~np.isnan(a)]]: the non-NaN samples, in order. *)
Fixpoint remove_nan (a : list float) : list R :=
  match a with
  | [] => []
  | NaN :: a' => remove_nan a'
  | Fin r :: a' => r :: remove_nan a'
  end.

Fixpoint insert (x : R) (l : list R) : list R :=
  match l with
  | [] => [x]
  | y :: l' => if Rle_dec x y then x :: l else y :: insert x l'
  end.

(** Ascending sort.  (numpy only partitions around the two indexes it
    reads; the samples found at those indexes are those of the sorted
    array.) *)
Definition sort (l : list R) : list R := fold_right insert [] l.

(** [arr[i]] with Python's negative indexes. *)
Definition getitem (arr : list R) (i : Z) : R :=
  nth (Z.to_nat (if (i <? 0)%Z then Z.of_nat (length arr) + i else i)%Z) arr 0.

(** [_get_indexes]: the two neighbouring positions of a virtual index;
    at or above the last position both are the last one ([-1]), below
    the first both are the first. *)
Definition get_indexes (n : nat) (virtual_index : R) : Z * Z :=
  if Rle_dec (INR n - 1) virtual_index then ((-1)%Z, (-1)%Z)
  else if Rlt_dec virtual_index 0 then (0%Z, 0%Z)
  else (Int_part virtual_index, (Int_part virtual_index + 1)%Z).

(** [_lerp(a, b, t)] *)
Definition lerp (a b t : R) : R :=
  let diff_b_a := b - a in
  if Rle_dec (1 / 2) t then b - diff_b_a * (1 - t) else a + diff_b_a * t.

(** [_quantile] with the default method (linear) on a NaN-free,
    non-empty sample.  The virtual index and the interpolation are
    exact here; [binary64.quantile] has the rounded ones. *)
Definition quantile (arr : list R) (quantiles : R) : R :=
  let values_count := length arr in
  let virtual_index := (INR values_count - 1) * quantiles in
  let (previous_index, next_index) := get_indexes values_count virtual_index in
  let arr := sort arr in
  let previous := getitem arr previous_index in
  let next := getitem arr next_index in
  let gamma := virtual_index - IZR previous_index in
  lerp previous next gamma.

(** [np.nanpercentile(a, q)]: [q] outside [0, 100] is an error; an
    all-NaN (or empty) sample gives NaN. *)
Definition nanpercentile (a : list float) (q : R) : result float :=
  let q := q / 100 in
  if Rle_dec 0 q then
    if Rle_dec q 1 then
      match remove_nan a with
      | [] => inr NaN
      | arr1d => inr (Fin (quantile arr1d q))
      end
    else inl (ValueError percentile_range)
  else inl (ValueError percentile_range).

(** [a * b] with broadcasting: two dimensions are compatible when they
    are equal or one of them is 1, and the result takes the other. *)
Definition broadcast_dim (d1 d2 : nat) : option nat :=
  if (d1 =? d2)%nat then Some d1
  else if (d1 =? 1)%nat then Some d2
  else if (d2 =? 1)%nat then Some d1
  else None.

(** Index into a dimension of extent [d] of an operand broadcast to a
    larger extent. *)
Definition bidx (d i : nat) : nat := if (d =? 1)%nat then 0%nat else i.

Definition multiply (a b : ndarray float) : result (ndarray float) :=
  let (h1, w1) := shape a in
  let (h2, w2) := shape b in
  match broadcast_dim h1 h2, broadcast_dim w1 w2 with
  | Some h, Some w =>
      inr (tabulate h w (fun i j =>
             match item a (bidx h1 i) (bidx w1 j),
                   item b (bidx h2 i) (bidx w2 j) with
             | Some x, Some y => fmul x y
             | _, _ => NaN
             end))
  | _, _ => inl (ValueError not_broadcastable)
  end.

(** [a - offset] *)
Definition subtract_scalar (a : ndarray float) (c : float) : ndarray float :=
  amap (fun x => fsub x c) a.

End np.

(** ** scipy.ndimage and scikit-image: the local threshold *)

Module ndimage.

(** Index extension of mode ["reflect"] (d c b a | a b c d | d c b a)
    on an axis of extent [n]. *)
Definition reflect (n : nat) (i : Z) : nat :=
  let m := (i mod (2 * Z.of_nat n))%Z in
  Z.to_nat (if (m <? Z.of_nat n)%Z then m else 2 * Z.of_nat n - 1 - m)%Z.

(** [_gaussian_kernel1d(sigma, 0, radius)]: the samples of the
    Gaussian at [-radius .. radius], divided by their sum.  The
    weights are exact here (scipy's are rounded and do not sum to 1
    exactly); only the shape of the filtered array and the cells where
    it is NaN are read off this model, not its values. *)
Definition gaussian_kernel1d (sigma : R) (radius : nat) : list R :=
  let sigma2 := sigma * sigma in
  let x := map (fun k => IZR (Z.of_nat k - Z.of_nat radius)) (seq 0 (2 * radius + 1)) in
  let phi_x := map (fun x => exp (- (1 / 2) / sigma2 * (x * x))) x in
  map (fun p => p / sum phi_x) phi_x.

Definition getf (a : ndarray float) (i j : nat) : float :=
  match item a i j with Some x => x | None => NaN end.

(** [correlate1d(input, weights, axis)] for the two axes of a raster:
    a weighted sum over the window centred at each cell, with the
    window continued by reflection at the borders.  A NaN in the
    window makes the sum NaN. *)
Definition correlate1d (weights : list R) (radius : nat) (axis : nat)
    (input : ndarray float) : ndarray float :=
  let (h, w) := shape input in
  tabulate h w (fun i j =>
    fsum (map (fun k =>
                 let d := (Z.of_nat k - Z.of_nat radius)%Z in
                 let x := if (axis =? 0)%nat
                          then getf input (reflect h (Z.of_nat i + d)) j
                          else getf input i (reflect w (Z.of_nat j + d)) in
                 fmul (Fin (nth k weights 0)) x)
              (seq 0 (2 * radius + 1)))).

Definition gaussian_filter1d (sigma truncate : R) (axis : nat)
    (input : ndarray float) : ndarray float :=
  let lw := Z.to_nat (Int_part (truncate * sigma + 1 / 2)) in
  correlate1d (rev (gaussian_kernel1d sigma lw)) lw axis input.

(** [gaussian_filter(input, sigma)] with the same [sigma] on both
    axes: one pass per axis, and no pass at all (the output is the
    input) when [sigma <= 1e-15]. *)
Definition gaussian_filter (sigma truncate : R) (input : ndarray float)
    : ndarray float :=
  if Rlt_dec (/ 10 ^ 15) sigma
  then gaussian_filter1d sigma truncate 1 (gaussian_filter1d sigma truncate 0 input)
  else input.

End ndimage.

Module skimage.

(** [skimage.filters.gaussian(image, sigma, mode="reflect")], whose
    default [truncate] is 4. *)
Definition gaussian (image : ndarray float) (sigma : R) : result (ndarray float) :=
  if Rlt_dec sigma 0 then inl (ValueError sigma_negative)
  else inr (ndimage.gaussian_filter sigma 4 image).

(** [threshold_local(image, block_size, method="gaussian", offset)]:
    an even [block_size] is refused; [sigma] is chosen so that the
    window covers more than 99% of the distribution; the result is
    the smoothed image minus [offset], in a new array. *)
Definition threshold_local (image : ndarray float) (block_size : Z) (offset : R)
    : result (ndarray float) :=
  if (block_size mod 2 =? 0)%Z then inl (ValueError block_size_even)
  else
    let sigma := (IZR block_size - 1) / 6 in
    match gaussian image sigma with
    | inl e => inl e
    | inr thresh_image => inr (np.subtract_scalar thresh_image (Fin offset))
    end.

End skimage.

(** ** scikit-learn: k-means *)

Module sklearn.

(** [KMeans(n_clusters, random_state).fit(X).cluster_centers_] on
    one-dimensional samples.  The checks made before any iteration
    are modelled; the iteration itself (k-means++ seeding drawn from
    [random_state], then Lloyd's algorithm) is the parameter [lloyd]. *)
Definition KMeans_fit (lloyd : nat -> Z -> list R -> list R)
    (n_clusters : nat) (random_state : Z) (X : list R) : result (list R) :=
  if (n_clusters =? 0)%nat then inl (ValueError invalid_n_clusters)
  else if (length X =? 0)%nat then inl (ValueError no_samples)
  else if (length X <? n_clusters)%nat then inl (ValueError too_few_samples)
  else inr (lloyd n_clusters random_state X).

End sklearn.

(** Python's [min] over a sequence of numbers. *)
Definition py_min (l : list R) : result R :=
  match l with
  | [] => inl (ValueError empty_sequence)
  | x :: l' => inr (fold_left (fun m y => if Rlt_dec y m then y else m) l' x)
  end.

(** ** The notebook: rasters, objects and variables *)

(** A raster opened with [rasterio.open]: its first band as
    [src.read(1)] returns it, and [src.nodata]. *)
Record dataset : Type := {
  band1 : ndarray float;
  nodata : option float
}.

(** Arrays live in a heap and the notebook's variables refer to them, so
    that an assignment through one variable ([a[mask] = v]) is an update
    of the object itself. *)
Inductive object : Type :=
| float_array (a : ndarray float)
| uint8_array (a : ndarray Z).

Definition ref : Type := nat.

(** The notebook's global variables: those bound to arrays and those
    bound to numbers. *)
Inductive avar : Type :=
| dfme_data | road_data | final_result
| adaptive_threshold | thresholded_dfme | valid_pixels.

Inductive svar : Type :=
| mean_dfme | std_dfme | dynamic_threshold.

Definition avar_eqb (x y : avar) : bool :=
  match x, y with
  | dfme_data, dfme_data | road_data, road_data | final_result, final_result
  | adaptive_threshold, adaptive_threshold
  | thresholded_dfme, thresholded_dfme | valid_pixels, valid_pixels => true
  | _, _ => false
  end.

Definition svar_eqb (x y : svar) : bool :=
  match x, y with
  | mean_dfme, mean_dfme | std_dfme, std_dfme
  | dynamic_threshold, dynamic_threshold => true
  | _, _ => false
  end.

Arguments avar_eqb !x !y /.
Arguments svar_eqb !x !y /.

Record state : Type := {
  heap : list object;
  arrays : avar -> option ref;
  scalars : svar -> option float
}.

Definition empty : state :=
  {| heap := []; arrays := fun _ => None; scalars := fun _ => None |}.

(** *** State and exception monad *)

Definition M (A : Type) : Type := state -> result (A * state).

Definition ret {A} (a : A) : M A := fun s => inr (a, s).

Definition bind {A B} (c : M A) (k : A -> M B) : M B :=
  fun s => match c s with
           | inl e => inl e
           | inr (a, s') => k a s'
           end.

Definition raise {A} (e : exn) : M A := fun _ => inl e.

Definition lift {A} (r : result A) : M A :=
  match r with inl e => raise e | inr a => ret a end.

Declare Scope nb_scope.
Delimit Scope nb_scope with nb.
Notation "x <- c ;; k" := (bind c (fun x => k))
  (at level 61, c at next level, right associativity) : nb_scope.
Notation "c ;; k" := (bind c (fun _ => k))
  (at level 61, right associativity) : nb_scope.
Local Open Scope nb_scope.

Fixpoint replace_nth {A} (n : nat) (x : A) (l : list A) : list A :=
  match l, n with
  | [], _ => []
  | _ :: l', O => x :: l'
  | y :: l', S n' => y :: replace_nth n' x l'
  end.

(** A new object. *)
Definition new (o : object) : M ref :=
  fun s => inr (length (heap s),
                {| heap := heap s ++ [o]; arrays := arrays s; scalars := scalars s |}).

(** In-place update of an object. *)
Definition update (r : ref) (o : object) : M unit :=
  fun s => inr (tt, {| heap := replace_nth r o (heap s);
                       arrays := arrays s; scalars := scalars s |}).

(** [x = <object>] *)
Definition assign (x : avar) (r : ref) : M unit :=
  fun s => inr (tt, {| heap := heap s;
                       arrays := fun y => if avar_eqb x y then Some r else arrays s y;
                       scalars := scalars s |}).

(** [x = <number>] *)
Definition set (x : svar) (v : float) : M unit :=
  fun s => inr (tt, {| heap := heap s; arrays := arrays s;
                       scalars := fun y => if svar_eqb x y then Some v else scalars s y |}).

Definition get (x : svar) : M float :=
  fun s => match scalars s x with
           | Some v => inr (v, s)
           | None => inl NameError
           end.

Definition lookup (x : avar) : M ref :=
  fun s => match arrays s x with
           | Some r => inr (r, s)
           | None => inl NameError
           end.

(** The samples of an array object, as floats (a uint8 array is
    promoted when it meets a float array). *)
Definition samples (o : object) : ndarray float :=
  match o with
  | float_array a => a
  | uint8_array a => amap (fun z => Fin (IZR z)) a
  end.

(** The array a variable refers to. *)
Definition load (x : avar) : M (ndarray float) :=
  r <- lookup x ;;
  fun s => match nth_error (heap s) r with
           | Some o => inr (samples o, s)
           | None => inl NameError
           end.

(** [x[mask] = v], in place. *)
Definition setitem_mask (x : avar) (mask : ndarray bool) (v : float) : M unit :=
  r <- lookup x ;;
  a <- load x ;;
  update r (float_array
              (zip_with (zip_with (fun y (m : bool) => if m then v else y)) a mask)).

(** What a state holds in a variable. *)
Definition array_of (s : state) (x : avar) : option object :=
  match arrays s x with
  | Some r => nth_error (heap s) r
  | None => None
  end.

(** *** Cells *)

Section Notebook.

(** The iteration of k-means, see [sklearn.KMeans_fit]. *)
Variable lloyd : nat -> Z -> list R -> list R.

(** [dfme_data = src.read(1)]: the band, in a new array. *)
Definition read_dfme (src : dataset) : M unit :=
  r <- new (float_array (band1 src)) ;;
  assign dfme_data r.

(** [dfme_data[dfme_data == src.nodata] = np.nan]: written into the
    array [dfme_data] refers to. *)
Definition ignore_nodata (src : dataset) : M unit :=
  a <- load dfme_data ;;
  setitem_mask dfme_data (np.equal_scalar a (nodata src)) NaN.

(** [thresholded_dfme = (dfme_data < dynamic_threshold).astype("uint8")] *)
Definition apply_threshold : M unit :=
  a <- load dfme_data ;;
  t <- get dynamic_threshold ;;
  r <- new (uint8_array (np.astype_uint8 (np.less_scalar a t))) ;;
  assign thresholded_dfme r.

(** 1. Standard deviations from the mean.  [factor] is the literal
    1.5 of the cell ("adjust factor as needed"). *)
Definition standard_deviation_threshold (factor : R) : M unit :=
  a <- load dfme_data ;;
  set mean_dfme (np.nanmean (ravel a)) ;;
  set std_dfme (np.nanstd (ravel a)) ;;
  m <- get mean_dfme ;;
  sd <- get std_dfme ;;
  set dynamic_threshold (fsub m (fmul (Fin factor) sd)).

Definition standard_deviation_cell (factor : R) (src : dataset) : M unit :=
  read_dfme src ;;
  ignore_nodata src ;;
  standard_deviation_threshold factor ;;
  apply_threshold.

(** The later cells use the [dfme_data] that the first one left:
    [on_raster src c] is [c] run on the raster [src] loaded that way. *)
Definition on_raster (src : dataset) (c : M unit) : M unit :=
  read_dfme src ;;
  ignore_nodata src ;;
  c.

(** 2. Percentile; the cell sets [percentile_cutoff = 5]. *)
Definition percentile_threshold (percentile_cutoff : R) : M unit :=
  a <- load dfme_data ;;
  t <- lift (np.nanpercentile (ravel a) percentile_cutoff) ;;
  set dynamic_threshold t.

Definition percentile_cell (percentile_cutoff : R) : M unit :=
  percentile_threshold percentile_cutoff ;;
  apply_threshold.

(** 3. Local adaptive threshold; the cell sets [block_size = 101] and
    passes [offset=0].  The threshold is an array of the shape of
    [dfme_data], compared with it cell by cell. *)
Definition local_threshold (block_size : Z) (offset : R) : M unit :=
  a <- load dfme_data ;;
  t <- lift (skimage.threshold_local a block_size offset) ;;
  r <- new (float_array t) ;;
  assign adaptive_threshold r.

Definition apply_local_threshold : M unit :=
  a <- load dfme_data ;;
  t <- load adaptive_threshold ;;
  r <- new (uint8_array (np.astype_uint8 (np.less a t))) ;;
  assign thresholded_dfme r.

Definition local_cell (block_size : Z) (offset : R) : M unit :=
  local_threshold block_size offset ;;
  apply_local_threshold.

(** 4. K-means; the cell passes [n_clusters=3, random_state=42].
    [valid_pixels] is a new one-column array of the non-NaN samples. *)
Definition kmeans_threshold (n_clusters : nat) (random_state : Z) : M unit :=
  a <- load dfme_data ;;
  r <- new (float_array (map (fun x => [Fin x]) (np.remove_nan (ravel a)))) ;;
  assign valid_pixels r ;;
  centers <- lift (sklearn.KMeans_fit lloyd n_clusters random_state
                     (np.remove_nan (ravel a))) ;;
  t <- lift (py_min centers) ;;
  set dynamic_threshold (Fin t).

Definition kmeans_cell (n_clusters : nat) (random_state : Z) : M unit :=
  kmeans_threshold n_clusters random_state ;;
  apply_threshold.

(** Step 5: [final_result = dfme_data * road_data] on the two rasters
    as read, without any treatment of nodata. *)
Definition multiply_cell (dfme road : dataset) : M unit :=
  r1 <- new (float_array (band1 dfme)) ;;
  assign dfme_data r1 ;;
  r2 <- new (float_array (band1 road)) ;;
  assign road_data r2 ;;
  a <- load dfme_data ;;
  b <- load road_data ;;
  p <- lift (np.multiply a b) ;;
  r <- new (float_array p) ;;
  assign final_result r.

End Notebook.

(** ** The two global thresholds in binary64

    The mean, the standard deviation and the percentile are numbers
    that numpy computes in IEEE 754 binary64, each operation rounded
    to nearest even.  The cells above idealise them as real numbers,
    which is all that the comparisons, the shapes, the NaN cases and
    the order of the steps need.  What the two cells return as numbers
    is read off the definitions below, which follow the same numpy
    code with the arithmetic of the standard library's [SpecFloat]
    at precision 53 and maximal exponent 1024. *)

Module binary64.

Import SpecFloat.

Definition float64 : Type := spec_float.

Definition prec : Z := 53.
Definition emax : Z := 1024.

Definition nan : float64 := S754_nan.
Definition zero : float64 := S754_zero false.

Definition add : float64 -> float64 -> float64 := SFadd prec emax.
Definition sub : float64 -> float64 -> float64 := SFsub prec emax.
Definition mul : float64 -> float64 -> float64 := SFmul prec emax.
Definition div : float64 -> float64 -> float64 := SFdiv prec emax.
Definition sqrt : float64 -> float64 := SFsqrt prec emax.

(** [x < y], [x <= y] and [x == y]: false when either side is NaN;
    the two zeros are equal. *)
Definition lt : float64 -> float64 -> bool := SFltb.
Definition le : float64 -> float64 -> bool := SFleb.
Definition eq : float64 -> float64 -> bool := SFeqb.

Definition isnan (x : float64) : bool :=
  match x with S754_nan => true | _ => false end.

(** Neither NaN nor an infinity. *)
Definition finite (x : float64) : bool :=
  match x with S754_zero _ | S754_finite _ _ _ => true | _ => false end.

(** The float of an integer, rounded when it has more than 53 bits. *)
Definition of_Z (z : Z) : float64 := binary_normalize prec emax z 0 false.

Definition one : float64 := of_Z 1.

(** The literal [0.5], which is 2^52 * 2^-53. *)
Definition half : float64 := S754_finite false 4503599627370496 (-53).

(** [np.floor(x).astype(np.intp)] on a finite number. *)
Definition floor (x : float64) : Z :=
  match x with
  | S754_finite s m e => Z.shiftl (if s then Zneg m else Zpos m) e
  | _ => 0%Z
  end.

(** [np.add.reduce] on fewer than eight numbers: they are added to 0
    one after the other.  (Longer arrays are added in blocks, in
    another order; what is proved below for every sum is stated for an
    arbitrary [add_reduce].) *)
Definition add_in_sequence (l : list float64) : float64 :=
  fold_left add l zero.

Section Reduction.

Variable add_reduce : list float64 -> float64.

(** [_replace_nan(a, 0)] *)
Definition replace_nan (a : list float64) : list float64 * list bool :=
  (map (fun x => if isnan x then zero else x) a, map isnan a).

(** [np.nanmean(a)]: the sum of the copy without NaN divided by the
    number of entries that are not NaN. *)
Definition nanmean (a : list float64) : float64 :=
  let (arr, mask) := replace_nan a in
  let cnt := np.count_false mask in
  let tot := add_reduce arr in
  div tot (of_Z (Z.of_nat cnt)).

(** [np.nanvar(a, ddof)] *)
Definition nanvar (ddof : nat) (a : list float64) : float64 :=
  let (arr, mask) := replace_nan a in
  let cnt := np.count_false mask in
  let avg := div (add_reduce arr) (of_Z (Z.of_nat cnt)) in
  let arr := map (fun x => sub x avg) arr in
  let arr := zip_with (fun x (m : bool) => if m then zero else x) arr mask in
  let sqr := map (fun x => mul x x) arr in
  let var := add_reduce sqr in
  let dof := (Z.of_nat cnt - Z.of_nat ddof)%Z in
  let var := div var (of_Z dof) in
  if (dof <=? 0)%Z then nan else var.

(** [np.nanstd(a)] with the default [ddof=0]. *)
Definition nanstd (a : list float64) : float64 := sqrt (nanvar 0 a).

(** [mean_dfme - factor * std_dfme] of the standard deviation cell;
    [dfme_data] is the array the first statements of the cell leave,
    with NaN where the raster has nodata. *)
Definition standard_deviation_threshold (factor : float64)
    (dfme_data : ndarray float64) : float64 :=
  let mean_dfme := nanmean (ravel dfme_data) in
  let std_dfme := nanstd (ravel dfme_data) in
  sub mean_dfme (mul factor std_dfme).

End Reduction.

(** [(dfme_data < dynamic_threshold).astype("uint8")] *)
Definition apply_threshold (dfme_data : ndarray float64)
    (dynamic_threshold : float64) : ndarray Z :=
  amap (fun x => if lt x dynamic_threshold then 1%Z else 0%Z) dfme_data.

(** [a[~np.isnan(a)]] *)
Definition remove_nan (a : list float64) : list float64 :=
  filter (fun x => negb (isnan x)) a.

Fixpoint insert (x : float64) (l : list float64) : list float64 :=
  match l with
  | [] => [x]
  | y :: l' => if le x y then x :: l else y :: insert x l'
  end.

(** Ascending sort of a sample without NaN.  (numpy only partitions
    around the two positions it reads; the samples found there are
    those of the sorted array.) *)
Definition sort (l : list float64) : list float64 := fold_right insert [] l.

(** [arr[i]] with Python's negative indexes. *)
Definition getitem (arr : list float64) (i : Z) : float64 :=
  nth (Z.to_nat (if (i <? 0)%Z then Z.of_nat (length arr) + i else i)%Z) arr nan.

(** [_get_indexes] *)
Definition get_indexes (n : nat) (virtual_index : float64) : Z * Z :=
  if le (of_Z (Z.of_nat n - 1)) virtual_index then ((-1)%Z, (-1)%Z)
  else if lt virtual_index zero then (0%Z, 0%Z)
  else if isnan virtual_index then ((-1)%Z, (-1)%Z)
  else (floor virtual_index, (floor virtual_index + 1)%Z).

(** [_lerp(a, b, t)]: [a + (b - a) * t], replaced by
    [b - (b - a) * (1 - t)] where [t >= 0.5]. *)
Definition lerp (a b t : float64) : float64 :=
  let diff_b_a := sub b a in
  let lerp_interpolation := add a (mul diff_b_a t) in
  if le half t then sub b (mul diff_b_a (sub one t)) else lerp_interpolation.

(** [_quantile] with the default method (linear): the virtual index is
    [(n - 1) * quantiles], computed as a float. *)
Definition quantile (arr : list float64) (quantiles : float64) : float64 :=
  let values_count := length arr in
  let virtual_index := mul (of_Z (Z.of_nat values_count - 1)) quantiles in
  let (previous_index, next_index) := get_indexes values_count virtual_index in
  let arr := sort arr in
  let previous := getitem arr previous_index in
  let next := getitem arr next_index in
  let gamma := sub virtual_index (of_Z previous_index) in
  lerp previous next gamma.

(** [np.nanpercentile(a, q)] *)
Definition nanpercentile (a : list float64) (q : float64) : result float64 :=
  let q := div q (of_Z 100) in
  if le zero q && le q one then
    match remove_nan a with
    | [] => inr nan
    | arr1d => inr (quantile arr1d q)
    end
  else inl (ValueError percentile_range).

(** [np.nanpercentile(dfme_data, percentile_cutoff)] of the percentile
    cell. *)
Definition percentile_threshold (percentile_cutoff : float64)
    (dfme_data : ndarray float64) : result float64 :=
  nanpercentile (ravel dfme_data) percentile_cutoff.

End binary64.

(** ** Notions of the specification *)

(** A sample is nodata when it compares equal to the raster's nodata
    value, and valid when it is neither nodata nor NaN. *)
Definition is_nodata (nd : option float) (x : float) : bool :=
  match nd with
  | Some v => feq x v
  | None => false
  end.

Definition is_valid (nd : option float) (x : float) : bool :=
  negb (np.isnan x) && negb (is_nodata nd x).

(** The Valid-Sample View of a raster. *)
Definition valid_sample_view (src : dataset) : list R :=
  np.remove_nan (filter (is_valid (nodata src)) (ravel (band1 src))).




(** The mantissa and the exponent of the binary64 number of a positive
    integer below 2^53: the integer shifted to 53 bits. *)
Definition integer_mantissa (m : positive) : positive :=
  fst (SpecFloat.shl_align m 0 (Zpos (SpecFloat.digits2_pos m) - 53)).

Definition integer_exponent (m : positive) : Z :=
  snd (SpecFloat.shl_align m 0 (Zpos (SpecFloat.digits2_pos m) - 53)).

(** A list of binary64 numbers is in ascending order. *)
Definition ascending (l : list binary64.float64) : Prop :=
  Sorted (fun x y => binary64.le x y = true) l.

(** [x] is a number strictly below the number [t]. *)
Definition below (x t : float) : Prop :=
  match x, t with
  | Fin a, Fin b => a < b
  | _, _ => False
  end.

(** The Mask Builder as the specification words it for a scalar
    threshold: 1 for a valid sample below the threshold, 0 for any other
    valid sample, and nodata ([None]) kept as nodata. *)
Definition spec_mask_cell (nd : option float) (t x : float) : option Z :=
  if is_valid nd x then Some (if flt x t then 1%Z else 0%Z) else None.

(** What the cells of a mask [m] are against the scalar threshold [t],
    for the raster [src]: 1 exactly for a valid sample strictly below
    [t], and 0 for any other sample, valid or not. *)
Definition mask_cells (src : dataset) (t : float) (m : ndarray Z) : Prop :=
  forall i j x, item (band1 src) i j = Some x ->
    (item m i j = Some 1%Z <-> is_valid (nodata src) x = true /\ below x t) /\
    (is_valid (nodata src) x = true /\ ~ below x t -> item m i j = Some 0%Z) /\
    (is_valid (nodata src) x = false -> item m i j = Some 0%Z).

(** Fusion as the specification words it: nodata on either side gives
    nodata ([None]), otherwise the product. *)
Definition spec_fuse_cell (nd1 nd2 : option float) (x y : float) : option float :=
  if is_valid nd1 x && is_valid nd2 y then Some (fmul x y) else None.

(** The array [dfme_data] holds once nodata has been replaced by NaN. *)
Definition nodata_to_nan (src : dataset) : ndarray float :=
  amap (fun x => if is_nodata (nodata src) x then NaN else x) (band1 src).

(** The state after [dfme_data] has been read from [src] and its nodata
    replaced by NaN: [dfme_data] is bound to a new array. *)
Definition loaded (src : dataset) (s : state) : state :=
  {| heap := heap s ++ [float_array (nodata_to_nan src)];
     arrays := fun y => if avar_eqb dfme_data y
                        then Some (length (heap s)) else arrays s y;
     scalars := scalars s |}.

(** A program leaves the objects that exist when it starts as they are. *)
Definition preserves_heap {A} (c : M A) : Prop :=
  forall s a s', c s = inr (a, s') ->
    (length (heap s) <= length (heap s'))%nat /\
    forall r, (r < length (heap s))%nat -> nth_error (heap s') r = nth_error (heap s) r.

(** Every cell of a mask is 0 or 1. *)
Definition binary (m : ndarray Z) : Prop :=
  forall i j z, item m i j = Some z -> z = 0%Z \/ z = 1%Z.

(** ** Sample rasters *)

(** One row, nodata -9999 in its first cell. *)
Definition raster_with_nodata : dataset :=
  {| band1 := [[Fin (-9999); Fin 0; Fin 2]]; nodata := Some (Fin (-9999)) |}.

(** Nothing but nodata. *)
Definition raster_all_nodata : dataset :=
  {| band1 := [[Fin (-9999); Fin (-9999)]]; nodata := Some (Fin (-9999)) |}.

(** Nothing but NaN. *)
Definition raster_all_nan : dataset :=
  {| band1 := [[NaN; NaN]]; nodata := None |}.

(** Valid values 1..5 in some order, and a NaN. *)
Definition raster_one_to_five : dataset :=
  {| band1 := [[Fin 3; NaN; Fin 1]; [Fin 5; Fin 2; Fin 4]]; nodata := None |}.

(** A candidate mask of one row and a road mask of two. *)
Definition candidate_row : dataset :=
  {| band1 := [[Fin 1; Fin 0]]; nodata := None |}.

Definition road_two_rows : dataset :=
  {| band1 := [[Fin 1; Fin 1]; [Fin 0; Fin 0]]; nodata := None |}.

(** A candidate raster whose only cell is nodata, off the road. *)
Definition candidate_nodata : dataset :=
  {| band1 := [[Fin (-9999)]]; nodata := Some (Fin (-9999)) |}.

Definition road_zero : dataset :=
  {| band1 := [[Fin 0]]; nodata := Some (Fin (-9999)) |}.

(** The residual raster of the specification's mask example. *)
Definition residual_2x2 : dataset :=
  {| band1 := [[Fin (-3 / 10); Fin (-1 / 10)]; [Fin (2 / 10); Fin (-2 / 10)]];
     nodata := None |}.

(** The masks of the specification's fusion example. *)
Definition candidate_2x2 : dataset :=
  {| band1 := [[Fin 1; Fin 0]; [Fin 0; Fin 1]]; nodata := None |}.

Definition road_2x2 : dataset :=
  {| band1 := [[Fin 1; Fin 1]; [Fin 0; Fin 0]]; nodata := None |}.

(** A road mask of three rows. *)
Definition road_three_rows : dataset :=
  {| band1 := [[Fin 1; Fin 1]; [Fin 0; Fin 0]; [Fin 1; Fin 0]]; nodata := None |}.









(** The samples 3, 1, 5, 2, 4 and a NaN, as in [raster_one_to_five]. *)
Definition raster_one_to_five_binary64 : ndarray binary64.float64 :=
  [[binary64.of_Z 3; binary64.nan; binary64.of_Z 1];
   [binary64.of_Z 5; binary64.of_Z 2; binary64.of_Z 4]].

(** ** Notions used by the further properties *)

(** Two runs end alike: with the same exception, or in states that
    agree on the results [outs] compares. *)
Definition same_outcome (outs : state -> state -> Prop)
    (r1 r2 : result (unit * state)) : Prop :=
  match r1, r2 with
  | inl e1, inl e2 => e1 = e2
  | inr (_, s1), inr (_, s2) => outs s1 s2
  | _, _ => False
  end.

(** What a cell with a scalar threshold leaves: the threshold and the
    mask. *)
Definition scalar_outputs (s1 s2 : state) : Prop :=
  scalars s1 dynamic_threshold = scalars s2 dynamic_threshold /\
  array_of s1 thresholded_dfme = array_of s2 thresholded_dfme.

(** What the local adaptive cell leaves: the threshold array and the
    mask. *)
Definition local_outputs (s1 s2 : state) : Prop :=
  array_of s1 adaptive_threshold = array_of s2 adaptive_threshold /\
  array_of s1 thresholded_dfme = array_of s2 thresholded_dfme.

(** A raster whose samples are all 7. *)
Definition raster_constant : dataset :=
  {| band1 := [[Fin 7; Fin 7]; [Fin 7; Fin 7]]; nodata := None |}.

(** The number of cells of a mask that are 1. *)
Definition ones (m : ndarray Z) : nat :=
  length (filter (Z.eqb 1) (ravel m)).

(** The number of samples strictly below [t]. *)
Definition count_below (t : binary64.float64) (l : list binary64.float64) : nat :=
  length (filter (fun x => binary64.lt x t) l).

(** A binary64 number that is neither NaN nor the negative zero. *)
Definition ordinary (x : binary64.float64) : Prop :=
  binary64.isnan x = false /\ x <> SpecFloat.S754_zero true.

(** The samples 0.1, 0.2 and 0.3 in two arrangements, and the factor
    1.5 of the standard deviation cell. *)
Definition raster_123 : ndarray binary64.float64 :=
  [[binary64.div (binary64.of_Z 1) (binary64.of_Z 10);
    binary64.div (binary64.of_Z 2) (binary64.of_Z 10);
    binary64.div (binary64.of_Z 3) (binary64.of_Z 10)]].

Definition raster_231 : ndarray binary64.float64 :=
  [[binary64.div (binary64.of_Z 2) (binary64.of_Z 10);
    binary64.div (binary64.of_Z 3) (binary64.of_Z 10);
    binary64.div (binary64.of_Z 1) (binary64.of_Z 10)]].

Definition three_halves : binary64.float64 :=
  binary64.div (binary64.of_Z 3) (binary64.of_Z 2).

(** The half-width of the window the local threshold looks at for a
    block size: the radius [lw] at which [gaussian_filter1d] truncates
    the Gaussian of [threshold_local]. *)
Definition window_radius (block_size : Z) : nat :=
  Z.to_nat (Int_part (4 * ((IZR block_size - 1) / 6) + 1 / 2)).

(** [dfme_data] loaded from [src], and [t] left in [dynamic_threshold]. *)
Definition loaded_with_threshold (src : dataset) (t : float) : state :=
  loaded src {| heap := []; arrays := fun _ => None;
                scalars := fun _ => Some t |}.

(** The state right after [dfme_data = src.read(1)] in a new notebook. *)
Definition just_read (src : dataset) : state :=
  {| heap := [float_array (band1 src)];
     arrays := fun y => if avar_eqb dfme_data y then Some 0%nat else None;
     scalars := fun _ => None |}.

(** * Properties *)

(** ** Lists and arrays *)

Lemma nth_error_snoc {A} (h : list A) (o : A) :
  nth_error (h ++ [o]) (length h) = Some o.
Proof.
  rewrite nth_error_app2 by lia. now rewrite Nat.sub_diag.
Qed.

Lemma nth_error_before_snoc {A} (h : list A) (o : A) (r : nat) :
  (r < length h)%nat -> nth_error (h ++ [o]) r = nth_error h r.
Proof. intros Hr. now apply nth_error_app1. Qed.

Lemma replace_nth_snoc {A} (h : list A) (o o' : A) :
  replace_nth (length h) o' (h ++ [o]) = h ++ [o'].
Proof.
  induction h as [|x h IH]; simpl; [reflexivity|]. now rewrite IH.
Qed.

Lemma replace_nth_other {A} (n r : nat) (x : A) (l : list A) :
  r <> n -> nth_error (replace_nth n x l) r = nth_error l r.
Proof.
  revert n r; induction l as [|y l IH]; intros [|n] [|r] Hne; simpl;
    try reflexivity; try congruence.
  apply IH. congruence.
Qed.

Lemma zip_with_map_r {A B C} (f : A -> B -> C) (g : A -> B) (l : list A) :
  zip_with f l (map g l) = map (fun x => f x (g x)) l.
Proof.
  induction l as [|x l IH]; simpl; [reflexivity|]. now rewrite IH.
Qed.

Lemma zip_with_amap_r {A B C} (f : A -> B -> C) (g : A -> B) (a : ndarray A) :
  zip_with (zip_with f) a (amap g a) = amap (fun x => f x (g x)) a.
Proof.
  unfold amap. induction a as [|row a IH]; simpl; [reflexivity|].
  now rewrite zip_with_map_r, IH.
Qed.

Lemma item_amap {A B} (f : A -> B) (a : ndarray A) (i j : nat) :
  item (amap f a) i j = option_map f (item a i j).
Proof.
  unfold item, amap. rewrite nth_error_map.
  destruct (nth_error a i) as [row|]; simpl; [|reflexivity].
  now rewrite nth_error_map.
Qed.

Lemma ravel_amap {A B} (f : A -> B) (a : ndarray A) :
  ravel (amap f a) = map f (ravel a).
Proof.
  unfold ravel, amap. now rewrite concat_map.
Qed.

Lemma item_in_ravel {A} (a : ndarray A) (i j : nat) (x : A) :
  item a i j = Some x -> In x (ravel a).
Proof.
  unfold item, ravel. intros H.
  destruct (nth_error a i) as [row|] eqn:Hrow; [|discriminate].
  apply in_concat. exists row. split; eauto using nth_error_In.
Qed.

Lemma shape_amap {A B} (f : A -> B) (a : ndarray A) :
  shape (amap f a) = shape a.
Proof.
  unfold shape, amap. rewrite length_map.
  destruct a as [|row a]; simpl; [reflexivity|]. now rewrite length_map.
Qed.

Lemma shape_tabulate {A} (h w : nat) (f : nat -> nat -> A) :
  shape (tabulate h w f) = if (h =? 0)%nat then (0%nat, 0%nat) else (h, w).
Proof.
  unfold shape, tabulate. rewrite length_map, length_seq.
  destruct h as [|h]; simpl; [reflexivity|].
  now rewrite length_map, length_seq.
Qed.

Lemma nth_error_tabulate {A} (h w : nat) (f : nat -> nat -> A) (i j : nat) :
  (i < h)%nat -> (j < w)%nat -> item (tabulate h w f) i j = Some (f i j).
Proof.
  intros Hi Hj. unfold item, tabulate.
  rewrite nth_error_map, nth_error_seq.
  destruct (Nat.ltb_spec i h) as [_|]; [simpl|lia].
  rewrite nth_error_map, nth_error_seq.
  destruct (Nat.ltb_spec j w) as [_|]; [reflexivity|lia].
Qed.

(** ** Running the primitives *)

Lemma load_run (s : state) (x : avar) (o : object) :
  array_of s x = Some o -> load x s = inr (samples o, s).
Proof.
  unfold array_of, load, lookup, bind. intros H.
  destruct (arrays s x) as [r|]; [|discriminate]. now rewrite H.
Qed.

Lemma get_run (s : state) (x : svar) (v : float) :
  scalars s x = Some v -> get x s = inr (v, s).
Proof. unfold get. now intros ->. Qed.

Lemma read_ignore_run (src : dataset) (s : state) :
  (read_dfme src ;; ignore_nodata src) s = inr (tt, loaded src s).
Proof.
  unfold read_dfme, ignore_nodata, setitem_mask, load, lookup, bind, new,
    assign, update, loaded. simpl.
  rewrite nth_error_snoc. simpl. rewrite nth_error_snoc. simpl.
  rewrite replace_nth_snoc. unfold np.equal_scalar.
  rewrite zip_with_amap_r. reflexivity.
Qed.

Lemma bind_run {A B} (c : M A) (k : A -> M B) (s s1 : state) (a : A) :
  c s = inr (a, s1) -> bind c k s = k a s1.
Proof. unfold bind. now intros ->. Qed.

Lemma bind_raise {A B} (c : M A) (k : A -> M B) (s : state) (e : exn) :
  c s = inl e -> bind c k s = inl e.
Proof. unfold bind. now intros ->. Qed.

Lemma array_of_loaded (src : dataset) (s : state) :
  array_of (loaded src s) dfme_data = Some (float_array (nodata_to_nan src)).
Proof. unfold array_of, loaded. simpl. apply nth_error_snoc. Qed.

(** ** The samples numpy's NaN-aware statistics see *)

Lemma remove_nan_masked (nd : option float) (l : list float) :
  np.remove_nan (map (fun x => if is_nodata nd x then NaN else x) l)
  = np.remove_nan (filter (is_valid nd) l).
Proof.
  induction l as [|x l IH]; simpl; [reflexivity|].
  unfold is_valid at 1.
  destruct x as [|r]; simpl.
  - destruct (is_nodata nd NaN); simpl; exact IH.
  - destruct (is_nodata nd (Fin r)); simpl; now rewrite IH.
Qed.

Lemma remove_nan_nodata_to_nan (src : dataset) :
  np.remove_nan (ravel (nodata_to_nan src)) = valid_sample_view src.
Proof.
  unfold nodata_to_nan, valid_sample_view.
  rewrite ravel_amap. apply remove_nan_masked.
Qed.

Lemma count_false_isnan (l : list float) :
  np.count_false (map np.isnan l) = length (np.remove_nan l).
Proof.
  unfold np.count_false.
  induction l as [|[|r] l IH]; simpl; auto.
Qed.

Lemma nanmean_empty (l : list float) :
  np.remove_nan l = [] -> np.nanmean l = NaN.
Proof.
  intros He. unfold np.nanmean.
  change (np.replace_nan l) with (fst (np.replace_nan l), map np.isnan l).
  cbv zeta. cbv iota.
  rewrite count_false_isnan, He. reflexivity.
Qed.

Lemma nanstd_empty (l : list float) :
  np.remove_nan l = [] -> np.nanstd l = NaN.
Proof.
  intros He. unfold np.nanstd, np.nanvar.
  change (np.replace_nan l) with (fst (np.replace_nan l), map np.isnan l).
  cbv zeta. cbv iota.
  rewrite count_false_isnan, He. reflexivity.
Qed.

(** ** Running the cells *)

Lemma apply_threshold_run (s : state) (o : object) (t : float) :
  array_of s dfme_data = Some o ->
  scalars s dynamic_threshold = Some t ->
  apply_threshold s
  = inr (tt,
         {| heap := heap s ++
                    [uint8_array (np.astype_uint8 (np.less_scalar (samples o) t))];
            arrays := fun y => if avar_eqb thresholded_dfme y
                               then Some (length (heap s)) else arrays s y;
            scalars := scalars s |}).
Proof.
  intros Ha Ht. unfold apply_threshold.
  rewrite (bind_run _ _ _ _ _ (load_run _ _ _ Ha)).
  rewrite (bind_run _ _ _ _ _ (get_run _ _ _ Ht)).
  reflexivity.
Qed.

Lemma apply_local_threshold_run (s : state) (o o' : object) :
  array_of s dfme_data = Some o ->
  array_of s adaptive_threshold = Some o' ->
  apply_local_threshold s
  = inr (tt,
         {| heap := heap s ++
                    [uint8_array (np.astype_uint8 (np.less (samples o) (samples o')))];
            arrays := fun y => if avar_eqb thresholded_dfme y
                               then Some (length (heap s)) else arrays s y;
            scalars := scalars s |}).
Proof.
  intros Ha Ht. unfold apply_local_threshold.
  rewrite (bind_run _ _ _ _ _ (load_run _ _ _ Ha)).
  rewrite (bind_run _ _ _ _ _ (load_run _ _ _ Ht)).
  reflexivity.
Qed.

Lemma standard_deviation_threshold_run (factor : R) (s : state) (o : object) :
  array_of s dfme_data = Some o ->
  standard_deviation_threshold factor s
  = inr (tt,
         {| heap := heap s; arrays := arrays s;
            scalars := fun y =>
              if svar_eqb dynamic_threshold y
              then Some (fsub (np.nanmean (ravel (samples o)))
                           (fmul (Fin factor) (np.nanstd (ravel (samples o)))))
              else if svar_eqb std_dfme y
                   then Some (np.nanstd (ravel (samples o)))
                   else if svar_eqb mean_dfme y
                        then Some (np.nanmean (ravel (samples o)))
                        else scalars s y |}).
Proof.
  intros Ha. unfold standard_deviation_threshold.
  rewrite (bind_run _ _ _ _ _ (load_run _ _ _ Ha)).
  reflexivity.
Qed.

(** Variables and objects of a state that a later allocation leaves in
    place. *)
Lemma array_of_alloc (h : list object) (ar : avar -> option ref)
    (sc sc' : svar -> option float) (x y : avar) (o o' : object) :
  array_of {| heap := h; arrays := ar; scalars := sc |} x = Some o ->
  avar_eqb y x = false ->
  array_of {| heap := h ++ [o'];
              arrays := fun z => if avar_eqb y z then Some (length h) else ar z;
              scalars := sc' |} x = Some o.
Proof.
  unfold array_of. simpl. intros Ha ->.
  destruct (ar x) as [r|]; [|discriminate].
  rewrite nth_error_before_snoc; [exact Ha|].
  apply nth_error_Some. congruence.
Qed.

Lemma array_of_new (h : list object) (ar : avar -> option ref)
    (sc : svar -> option float) (y : avar) (o' : object) :
  array_of {| heap := h ++ [o'];
              arrays := fun z => if avar_eqb y z then Some (length h) else ar z;
              scalars := sc |} y = Some o'.
Proof.
  unfold array_of. simpl.
  replace (avar_eqb y y) with true by (now destruct y).
  apply nth_error_snoc.
Qed.

Lemma array_of_eta (s : state) (x : avar) :
  array_of {| heap := heap s; arrays := arrays s; scalars := scalars s |} x
  = array_of s x.
Proof. reflexivity. Qed.

(** The first cell, start to end. *)
Lemma standard_deviation_cell_run (factor : R) (src : dataset) (s : state) :
  let a := nodata_to_nan src in
  let t := fsub (np.nanmean (ravel a)) (fmul (Fin factor) (np.nanstd (ravel a))) in
  exists s',
    standard_deviation_cell factor src s = inr (tt, s') /\
    scalars s' dynamic_threshold = Some t /\
    array_of s' dfme_data = Some (float_array a) /\
    array_of s' thresholded_dfme
    = Some (uint8_array (np.astype_uint8 (np.less_scalar a t))).
Proof.
  intros a t. unfold standard_deviation_cell.
  pose proof (read_ignore_run src s) as H0. unfold bind in H0 |- *.
  destruct (read_dfme src s) as [e|[[] s0]]; [discriminate|].
  rewrite H0.
  pose proof (array_of_loaded src s) as Ha.
  rewrite (standard_deviation_threshold_run factor _ _ Ha).
  match goal with |- context [apply_threshold ?s1] =>
    assert (Ha1 : array_of s1 dfme_data = Some (float_array a)) by exact Ha;
    rewrite (apply_threshold_run s1 _ t Ha1 eq_refl)
  end.
  eexists. split; [reflexivity|]. split; [reflexivity|]. split.
  - eapply array_of_alloc; [exact Ha|reflexivity].
  - apply array_of_new.
Qed.

(** ** Comparisons *)

Lemma flt_below (x t : float) : flt x t = true <-> below x t.
Proof.
  destruct x as [|a], t as [|b]; simpl; try (split; [discriminate|tauto]).
  destruct (Rlt_dec a b); split; auto; discriminate.
Qed.

Lemma flt_not_below (x t : float) : flt x t = false <-> ~ below x t.
Proof.
  rewrite <- flt_below. destruct (flt x t); split; congruence.
Qed.

Lemma feq_same (r : R) : feq (Fin r) (Fin r) = true.
Proof. simpl. destruct (Req_dec_T r r); congruence. Qed.

Lemma feq_diff (a b : R) : a <> b -> feq (Fin a) (Fin b) = false.
Proof. intros H. simpl. destruct (Req_dec_T a b); congruence. Qed.

Lemma nth_error_zip_with {A B C} (f : A -> B -> C) (l : list A) (m : list B) (n : nat) :
  nth_error (zip_with f l m) n
  = match nth_error l n, nth_error m n with
    | Some x, Some y => Some (f x y)
    | _, _ => None
    end.
Proof.
  revert m n; induction l as [|x l IH]; intros [|y m] [|n]; simpl; auto.
  - now destruct (nth_error l n).
Qed.

Lemma item_zip_with {A B C} (f : A -> B -> C) (a : ndarray A) (b : ndarray B) (i j : nat) :
  item (zip_with (zip_with f) a b) i j
  = match item a i j, item b i j with
    | Some x, Some y => Some (f x y)
    | _, _ => None
    end.
Proof.
  unfold item. rewrite nth_error_zip_with.
  destruct (nth_error a i) as [ra|]; [|reflexivity].
  destruct (nth_error b i) as [rb|].
  - apply nth_error_zip_with.
  - now destruct (nth_error ra j).
Qed.

Lemma item_mask_scalar (a : ndarray float) (t : float) (i j : nat) :
  item (np.astype_uint8 (np.less_scalar a t)) i j
  = option_map (fun x => if flt x t then 1%Z else 0%Z) (item a i j).
Proof.
  unfold np.astype_uint8, np.less_scalar. rewrite !item_amap.
  now destruct (item a i j).
Qed.

Lemma item_mask_local (a t : ndarray float) (i j : nat) :
  item (np.astype_uint8 (np.less a t)) i j
  = match item a i j, item t i j with
    | Some x, Some y => Some (if flt x y then 1%Z else 0%Z)
    | _, _ => None
    end.
Proof.
  unfold np.astype_uint8, np.less. rewrite item_amap, item_zip_with.
  destruct (item a i j), (item t i j); reflexivity.
Qed.

Lemma item_nodata_to_nan (src : dataset) (i j : nat) :
  item (nodata_to_nan src) i j
  = option_map (fun x => if is_nodata (nodata src) x then NaN else x)
      (item (band1 src) i j).
Proof. apply item_amap. Qed.

(** The residuals [[-0.3, -0.1], [0.2, -0.2]] against the threshold
    -0.15. *)
Example mask_of_residual_2x2 :
  np.astype_uint8 (np.less_scalar (band1 residual_2x2) (Fin (-15 / 100)))
  = [[1; 0]; [0; 1]]%Z.
Proof.
  unfold np.astype_uint8, np.less_scalar, amap. simpl.
  repeat (destruct (Rlt_dec _ _); try lra). reflexivity.
Qed.

(** A sample equal to the threshold is not below it. *)
Example mask_at_threshold (t : R) :
  np.astype_uint8 (np.less_scalar [[Fin t]] (Fin t)) = [[0%Z]].
Proof.
  unfold np.astype_uint8, np.less_scalar, amap. simpl.
  destruct (Rlt_dec t t); [lra|reflexivity].
Qed.

(** ** Mask Builder *)

(** C10.  Whatever the threshold, a number or an array, the comparison
    followed by [astype("uint8")] yields a mask whose cells are all 0
    or 1, and a NaN sample of [dfme_data] is written as 0: nothing in
    the mask marks nodata. *)
Theorem mask_is_binary (s : state) (o : object) :
  array_of s dfme_data = Some o ->
  (forall t, scalars s dynamic_threshold = Some t ->
     exists s' m,
       apply_threshold s = inr (tt, s') /\
       array_of s' thresholded_dfme = Some (uint8_array m) /\
       binary m /\
       forall i j, item (samples o) i j = Some NaN -> item m i j = Some 0%Z) /\
  (forall o', array_of s adaptive_threshold = Some o' ->
     exists s' m,
       apply_local_threshold s = inr (tt, s') /\
       array_of s' thresholded_dfme = Some (uint8_array m) /\
       binary m /\
       forall i j y, item (samples o) i j = Some NaN ->
                     item (samples o') i j = Some y -> item m i j = Some 0%Z).
Proof.
  intros Ha. split.
  - intros t Ht. rewrite (apply_threshold_run s o t Ha Ht).
    eexists _, _. split; [reflexivity|]. split; [apply array_of_new|]. split.
    + intros i j z. rewrite item_mask_scalar.
      destruct (item (samples o) i j) as [x|]; [|discriminate].
      simpl. destruct (flt x t); intros [= <-]; auto.
    + intros i j Hx. rewrite item_mask_scalar, Hx. reflexivity.
  - intros o' Ht. rewrite (apply_local_threshold_run s o o' Ha Ht).
    eexists _, _. split; [reflexivity|]. split; [apply array_of_new|]. split.
    + intros i j z. rewrite item_mask_local.
      destruct (item (samples o) i j) as [x|]; [|discriminate].
      destruct (item (samples o') i j) as [y|]; [|discriminate].
      destruct (flt x y); intros [= <-]; auto.
    + intros i j y Hx Hy. rewrite item_mask_local, Hx, Hy. reflexivity.
Qed.

(** The mask of that raster against the threshold 3. *)
Lemma mask_is_binary_witness :
  exists s' m,
    apply_threshold
      (loaded raster_one_to_five
         {| heap := []; arrays := fun _ => None;
            scalars := fun _ => Some (Fin 3) |}) = inr (tt, s') /\
    array_of s' thresholded_dfme = Some (uint8_array m) /\
    binary m /\
    forall i j,
      item (nodata_to_nan raster_one_to_five) i j = Some NaN ->
      item m i j = Some 0%Z.
Proof.
  refine (proj1 (mask_is_binary
                   (loaded raster_one_to_five
                      {| heap := []; arrays := fun _ => None;
                         scalars := fun _ => Some (Fin 3) |})
                   (float_array (nodata_to_nan raster_one_to_five)) _)
            (Fin 3) _); reflexivity.
Defined.

(** ** Fusion *)

Lemma multiply_cell_run (dfme road : dataset) (s : state) :
  multiply_cell dfme road s
  = match np.multiply (band1 dfme) (band1 road) with
    | inl e => inl e
    | inr p =>
        inr (tt,
             {| heap := ((heap s ++ [float_array (band1 dfme)])
                         ++ [float_array (band1 road)]) ++ [float_array p];
                arrays := fun y =>
                  if avar_eqb final_result y
                  then Some (length ((heap s ++ [float_array (band1 dfme)])
                                     ++ [float_array (band1 road)]))
                  else if avar_eqb road_data y
                       then Some (length (heap s ++ [float_array (band1 dfme)]))
                       else if avar_eqb dfme_data y
                            then Some (length (heap s))
                            else arrays s y;
                scalars := scalars s |})
    end.
Proof.
  unfold multiply_cell, load, lookup, new, assign, bind. simpl.
  rewrite nth_error_before_snoc
    by (rewrite length_app; simpl; lia).
  rewrite nth_error_snoc. simpl. rewrite nth_error_snoc. simpl.
  destruct (np.multiply (band1 dfme) (band1 road)) as [e|p]; reflexivity.
Qed.

Lemma bidx_same (d i : nat) : (i < d)%nat -> np.bidx d i = i.
Proof.
  unfold np.bidx. intros Hi.
  destruct (Nat.eqb_spec d 1) as [->|_]; lia.
Qed.

Lemma broadcast_dim_same (d : nat) : np.broadcast_dim d d = Some d.
Proof. unfold np.broadcast_dim. now rewrite Nat.eqb_refl. Qed.

Lemma item_bounds {A} (a : ndarray A) (i j : nat) (x : A) :
  rectangular a -> item a i j = Some x ->
  (i < fst (shape a))%nat /\ (j < snd (shape a))%nat.
Proof.
  unfold item. intros Hrect H.
  destruct (nth_error a i) as [row|] eqn:Hrow; [|discriminate].
  split.
  - apply nth_error_Some. simpl. congruence.
  - rewrite <- (Hrect row) by eauto using nth_error_In.
    apply nth_error_Some. congruence.
Qed.

Lemma multiply_same_shape (a b : ndarray float) :
  shape a = shape b -> rectangular a ->
  exists p,
    np.multiply a b = inr p /\
    forall i j x y, item a i j = Some x -> item b i j = Some y ->
                    item p i j = Some (fmul x y).
Proof.
  intros Hshape Hrect. unfold np.multiply.
  rewrite <- Hshape.
  destruct (shape a) as [h w] eqn:Hs.
  rewrite !broadcast_dim_same.
  eexists. split; [reflexivity|].
  intros i j x y Hx Hy.
  destruct (item_bounds a i j x Hrect Hx) as [Hi Hj].
  rewrite Hs in Hi, Hj. simpl in Hi, Hj.
  rewrite nth_error_tabulate by assumption.
  rewrite !bidx_same by assumption.
  now rewrite Hx, Hy.
Qed.

(** Two extents cannot be broadcast together exactly when they differ
    and neither is 1. *)
Lemma broadcast_dim_none (d1 d2 : nat) :
  np.broadcast_dim d1 d2 = None <-> d1 <> d2 /\ d1 <> 1%nat /\ d2 <> 1%nat.
Proof.
  unfold np.broadcast_dim.
  destruct (Nat.eqb_spec d1 d2) as [E|E];
    [split; [discriminate|intros [H _]; contradiction]|].
  destruct (Nat.eqb_spec d1 1) as [E1|E1];
    [split; [discriminate|intros (_ & H & _); contradiction]|].
  destruct (Nat.eqb_spec d2 1) as [E2|E2];
    [split; [discriminate|intros (_ & _ & H); contradiction]|].
  split; auto.
Qed.

Lemma multiply_fails (a b : ndarray float) (e : exn) :
  np.multiply a b = inl e <->
  e = ValueError not_broadcastable /\
  ((fst (shape a) <> fst (shape b) /\
    fst (shape a) <> 1%nat /\ fst (shape b) <> 1%nat) \/
   (snd (shape a) <> snd (shape b) /\
    snd (shape a) <> 1%nat /\ snd (shape b) <> 1%nat)).
Proof.
  rewrite <- !broadcast_dim_none.
  unfold np.multiply.
  destruct (shape a) as [h1 w1], (shape b) as [h2 w2]. simpl.
  destruct (np.broadcast_dim h1 h2) as [h|], (np.broadcast_dim w1 w2) as [w|];
    split; try discriminate;
    try (intros [= <-]; auto);
    try (intros [_ [|]]; discriminate);
    try (intros [-> _]; reflexivity).
Qed.

(** A raster of two rows and one of three cannot be multiplied. *)
Example multiply_shape_mismatch :
  np.multiply (band1 candidate_2x2) (band1 road_three_rows)
  = inl (ValueError not_broadcastable).
Proof. reflexivity. Qed.

(** The candidate mask [[1, 0], [0, 1]] times the road mask
    [[1, 1], [0, 0]]. *)
Example product_of_masks_2x2 :
  np.multiply (band1 candidate_2x2) (band1 road_2x2)
  = inr [[Fin 1; Fin 0]; [Fin 0; Fin 0]].
Proof.
  unfold np.multiply, tabulate, item, np.bidx. simpl. repeat f_equal; lra.
Qed.

(** C3, as the specification states it, fails twice.  A candidate
    raster of one row is multiplied with a road raster of two rows
    without any error (its row is repeated), and a nodata cell of the
    candidate raster, multiplied by 0, becomes a valid sample where
    the specification asks for nodata. *)
Lemma fusion_broadcasts_and_drops_nodata :
  (shape (band1 candidate_row) <> shape (band1 road_two_rows) /\
   exists s',
     multiply_cell candidate_row road_two_rows empty = inr (tt, s') /\
     array_of s' final_result
     = Some (float_array [[Fin (1 * 1); Fin (0 * 1)]; [Fin (1 * 0); Fin (0 * 0)]])) /\
  (is_valid (nodata candidate_nodata) (Fin (-9999)) = false /\
   spec_fuse_cell (nodata candidate_nodata) (nodata road_zero)
     (Fin (-9999)) (Fin 0) = None /\
   is_valid (nodata candidate_nodata) (Fin (-9999 * 0)) = true /\
   exists s',
     multiply_cell candidate_nodata road_zero empty = inr (tt, s') /\
     array_of s' final_result = Some (float_array [[Fin (-9999 * 0)]])).
Proof.
  assert (Hnd : is_nodata (nodata candidate_nodata) (Fin (-9999)) = true)
    by apply feq_same.
  split; [split|].
  - unfold shape. simpl. discriminate.
  - rewrite multiply_cell_run. eexists. split; reflexivity.
  - split; [|split; [|split]].
    + unfold is_valid. now rewrite Hnd.
    + unfold spec_fuse_cell, is_valid. now rewrite Hnd.
    + unfold is_valid, is_nodata. simpl.
      destruct (Req_dec_T (-9999 * 0) (-9999)); [lra|reflexivity].
    + rewrite multiply_cell_run. eexists. split; reflexivity.
Qed.

(** C3, amended.  The multiplication fails, with a ValueError, exactly
    when the two shapes cannot be broadcast together: the numbers of
    rows differ and neither is 1, or the numbers of columns differ and
    neither is 1.  When the shapes are the same, each cell of
    [final_result] is the product of the two input samples as stored:
    NaN if either is NaN, and a nodata value is multiplied like any
    other number. *)
Theorem fusion_multiplies (dfme road : dataset) (s : state) :
  (forall e,
     multiply_cell dfme road s = inl e <->
     e = ValueError not_broadcastable /\
     ((fst (shape (band1 dfme)) <> fst (shape (band1 road)) /\
       fst (shape (band1 dfme)) <> 1%nat /\ fst (shape (band1 road)) <> 1%nat) \/
      (snd (shape (band1 dfme)) <> snd (shape (band1 road)) /\
       snd (shape (band1 dfme)) <> 1%nat /\ snd (shape (band1 road)) <> 1%nat))) /\
  (shape (band1 dfme) = shape (band1 road) ->
   rectangular (band1 dfme) ->
   exists s' p,
     multiply_cell dfme road s = inr (tt, s') /\
     array_of s' final_result = Some (float_array p) /\
     forall i j x y,
       item (band1 dfme) i j = Some x -> item (band1 road) i j = Some y ->
       item p i j = Some (fmul x y)).
Proof.
  split.
  - intros e. rewrite multiply_cell_run, <- multiply_fails.
    destruct (np.multiply (band1 dfme) (band1 road)); split; congruence.
  - intros Hshape Hrect.
    destruct (multiply_same_shape _ _ Hshape Hrect) as (p & Hp & Hitem).
    rewrite multiply_cell_run, Hp.
    eexists _, p. split; [reflexivity|]. split; [|exact Hitem].
    unfold array_of. simpl. apply nth_error_snoc.
Qed.

(** The 2 by 2 candidate mask of the fusion example cannot be
    multiplied by a road mask of three rows, and is multiplied cell by
    cell with the 2 by 2 road mask of the example. *)
Lemma fusion_multiplies_witness :
  multiply_cell candidate_2x2 road_three_rows empty
  = inl (ValueError not_broadcastable) /\
  exists s' p,
    multiply_cell candidate_2x2 road_2x2 empty = inr (tt, s') /\
    array_of s' final_result = Some (float_array p) /\
    forall i j x y,
      item (band1 candidate_2x2) i j = Some x ->
      item (band1 road_2x2) i j = Some y ->
      item p i j = Some (fmul x y).
Proof.
  split.
  - apply (proj1 (fusion_multiplies candidate_2x2 road_three_rows empty)).
    split; [reflexivity|]. left. simpl. repeat split; discriminate.
  - apply (fusion_multiplies candidate_2x2 road_2x2 empty).
    + reflexivity.
    + intros row [<-|[<-|[]]]; reflexivity.
Defined.

(** ** The later cells *)

Lemma on_raster_run (src : dataset) (c : M unit) (s : state) :
  on_raster src c s = c (loaded src s).
Proof.
  unfold on_raster.
  pose proof (read_ignore_run src s) as H0. unfold bind in H0 |- *.
  destruct (read_dfme src s) as [e|[[] s0]]; [discriminate|].
  now rewrite H0.
Qed.

Lemma percentile_threshold_run (p : R) (s : state) (o : object) :
  array_of s dfme_data = Some o ->
  percentile_threshold p s
  = match np.nanpercentile (ravel (samples o)) p with
    | inl e => inl e
    | inr t =>
        inr (tt,
             {| heap := heap s; arrays := arrays s;
                scalars := fun y => if svar_eqb dynamic_threshold y
                                    then Some t else scalars s y |})
    end.
Proof.
  intros Ha. unfold percentile_threshold.
  rewrite (bind_run _ _ _ _ _ (load_run _ _ _ Ha)).
  unfold bind, lift.
  destruct (np.nanpercentile (ravel (samples o)) p); reflexivity.
Qed.

Lemma local_threshold_run (b : Z) (off : R) (s : state) (o : object) :
  array_of s dfme_data = Some o ->
  local_threshold b off s
  = match skimage.threshold_local (samples o) b off with
    | inl e => inl e
    | inr t =>
        inr (tt,
             {| heap := heap s ++ [float_array t];
                arrays := fun y => if avar_eqb adaptive_threshold y
                                   then Some (length (heap s)) else arrays s y;
                scalars := scalars s |})
    end.
Proof.
  intros Ha. unfold local_threshold.
  rewrite (bind_run _ _ _ _ _ (load_run _ _ _ Ha)).
  unfold bind, lift.
  destruct (skimage.threshold_local (samples o) b off); reflexivity.
Qed.

Lemma kmeans_threshold_run (lloyd : nat -> Z -> list R -> list R)
    (n : nat) (seed : Z) (s : state) (o : object) :
  array_of s dfme_data = Some o ->
  let X := np.remove_nan (ravel (samples o)) in
  kmeans_threshold lloyd n seed s
  = match sklearn.KMeans_fit lloyd n seed X with
    | inl e => inl e
    | inr centers =>
        match py_min centers with
        | inl e => inl e
        | inr t =>
            inr (tt,
                 {| heap := heap s ++ [float_array (map (fun x => [Fin x]) X)];
                    arrays := fun y => if avar_eqb valid_pixels y
                                       then Some (length (heap s)) else arrays s y;
                    scalars := fun y => if svar_eqb dynamic_threshold y
                                        then Some (Fin t) else scalars s y |})
        end
    end.
Proof.
  intros Ha X. unfold kmeans_threshold.
  rewrite (bind_run _ _ _ _ _ (load_run _ _ _ Ha)).
  fold X. unfold bind, lift, new, assign. simpl.
  destruct (sklearn.KMeans_fit lloyd n seed X) as [e|centers]; [reflexivity|].
  simpl. destruct (py_min centers); reflexivity.
Qed.

(** *** [threshold_local] and the block size *)

Lemma mod2_odd (b : Z) : ((b mod 2 =? 0) = negb (Z.odd b))%Z.
Proof.
  rewrite Zmod_odd. now destruct (Z.odd b).
Qed.

Lemma threshold_local_even (a : ndarray float) (b : Z) (off : R) :
  Z.even b = true ->
  skimage.threshold_local a b off = inl (ValueError block_size_even).
Proof.
  intros He. unfold skimage.threshold_local.
  rewrite mod2_odd, <- Z.negb_even, He. reflexivity.
Qed.

Lemma threshold_local_negative (a : ndarray float) (b : Z) (off : R) :
  Z.odd b = true -> (b <= 0)%Z ->
  skimage.threshold_local a b off = inl (ValueError sigma_negative).
Proof.
  intros Ho Hb. unfold skimage.threshold_local, skimage.gaussian.
  rewrite mod2_odd, Ho. simpl.
  apply IZR_le in Hb.
  destruct (Rlt_dec ((IZR b - 1) / 6) 0) as [_|Hn]; [reflexivity|lra].
Qed.

Lemma threshold_local_positive (a : ndarray float) (b : Z) (off : R) :
  Z.odd b = true -> (0 < b)%Z ->
  skimage.threshold_local a b off
  = inr (np.subtract_scalar
           (ndimage.gaussian_filter ((IZR b - 1) / 6) 4 a) (Fin off)).
Proof.
  intros Ho Hb. unfold skimage.threshold_local, skimage.gaussian.
  rewrite mod2_odd, Ho. simpl.
  assert (1 <= b)%Z as Hb1%IZR_le by lia.
  destruct (Rlt_dec ((IZR b - 1) / 6) 0) as [Hn|_]; [lra|reflexivity].
Qed.

Lemma threshold_local_accepts (a : ndarray float) (b : Z) (off : R) :
  (exists t, skimage.threshold_local a b off = inr t) <->
  Z.odd b = true /\ (0 < b)%Z.
Proof.
  split.
  - intros [t Ht].
    destruct (Z.odd b) eqn:Ho.
    + split; [reflexivity|].
      destruct (Z_lt_le_dec 0 b) as [|Hle]; [assumption|].
      rewrite (threshold_local_negative a b off Ho Hle) in Ht. discriminate.
    + rewrite threshold_local_even in Ht; [discriminate|].
      now rewrite <- Z.negb_odd, Ho.
  - intros [Ho Hb]. eexists. now apply threshold_local_positive.
Qed.


Lemma shape_correlate1d (weights : list R) (radius axis : nat) (a : ndarray float) :
  shape (ndimage.correlate1d weights radius axis a) = shape a.
Proof.
  unfold ndimage.correlate1d.
  destruct (shape a) as [h w] eqn:Hs. rewrite shape_tabulate.
  destruct (Nat.eqb_spec h 0) as [->|_]; [|reflexivity].
  unfold shape in Hs. destruct a; [assumption|discriminate].
Qed.

(** The local threshold has the shape of the image. *)
Lemma threshold_local_shape (a t : ndarray float) (b : Z) (off : R) :
  skimage.threshold_local a b off = inr t -> shape t = shape a.
Proof.
  intros Ht.
  destruct (proj1 (threshold_local_accepts a b off) (ex_intro _ t Ht)) as [Ho Hb].
  rewrite (threshold_local_positive a b off Ho Hb) in Ht.
  injection Ht as <-. unfold np.subtract_scalar. rewrite shape_amap.
  unfold ndimage.gaussian_filter, ndimage.gaussian_filter1d.
  destruct (Rlt_dec _ _); [|reflexivity].
  now rewrite !shape_correlate1d.
Qed.

Lemma percentile_cell_run (p : R) (s : state) (o : object) :
  array_of s dfme_data = Some o ->
  percentile_cell p s
  = match np.nanpercentile (ravel (samples o)) p with
    | inl e => inl e
    | inr t =>
        inr (tt,
             {| heap := heap s ++
                        [uint8_array (np.astype_uint8 (np.less_scalar (samples o) t))];
                arrays := fun y => if avar_eqb thresholded_dfme y
                                   then Some (length (heap s)) else arrays s y;
                scalars := fun y => if svar_eqb dynamic_threshold y
                                    then Some t else scalars s y |})
    end.
Proof.
  intros Ha. unfold percentile_cell, bind.
  rewrite (percentile_threshold_run p s o Ha).
  destruct (np.nanpercentile (ravel (samples o)) p) as [e|t]; [reflexivity|].
  erewrite apply_threshold_run; [reflexivity|exact Ha|reflexivity].
Qed.

Lemma local_cell_run (b : Z) (off : R) (s : state) (o : object) :
  array_of s dfme_data = Some o ->
  local_cell b off s
  = match skimage.threshold_local (samples o) b off with
    | inl e => inl e
    | inr t =>
        inr (tt,
             {| heap := (heap s ++ [float_array t]) ++
                        [uint8_array (np.astype_uint8 (np.less (samples o) t))];
                arrays := fun y =>
                  if avar_eqb thresholded_dfme y
                  then Some (length (heap s ++ [float_array t]))
                  else if avar_eqb adaptive_threshold y
                       then Some (length (heap s)) else arrays s y;
                scalars := scalars s |})
    end.
Proof.
  intros Ha. unfold local_cell, bind.
  rewrite (local_threshold_run b off s o Ha).
  destruct (skimage.threshold_local (samples o) b off) as [e|t]; [reflexivity|].
  match goal with |- context [apply_local_threshold ?s1] =>
    rewrite (apply_local_threshold_run s1 o (float_array t))
  end.
  - reflexivity.
  - eapply array_of_alloc; [rewrite array_of_eta; exact Ha|reflexivity].
  - apply array_of_new.
Qed.

Lemma kmeans_cell_run (lloyd : nat -> Z -> list R -> list R)
    (n : nat) (seed : Z) (s : state) (o : object) :
  array_of s dfme_data = Some o ->
  let X := np.remove_nan (ravel (samples o)) in
  kmeans_cell lloyd n seed s
  = match sklearn.KMeans_fit lloyd n seed X with
    | inl e => inl e
    | inr centers =>
        match py_min centers with
        | inl e => inl e
        | inr t =>
            inr (tt,
                 {| heap := (heap s ++ [float_array (map (fun x => [Fin x]) X)])
                            ++ [uint8_array
                                  (np.astype_uint8
                                     (np.less_scalar (samples o) (Fin t)))];
                    arrays := fun y =>
                      if avar_eqb thresholded_dfme y
                      then Some (length (heap s ++
                                         [float_array (map (fun x => [Fin x]) X)]))
                      else if avar_eqb valid_pixels y
                           then Some (length (heap s)) else arrays s y;
                    scalars := fun y => if svar_eqb dynamic_threshold y
                                        then Some (Fin t) else scalars s y |})
        end
    end.
Proof.
  intros Ha X. unfold kmeans_cell, bind.
  rewrite (kmeans_threshold_run lloyd n seed s o Ha). fold X.
  destruct (sklearn.KMeans_fit lloyd n seed X) as [e|centers]; [reflexivity|].
  destruct (py_min centers) as [e|t]; [reflexivity|].
  match goal with |- context [apply_threshold ?s1] =>
    rewrite (apply_threshold_run s1 o (Fin t))
  end.
  - reflexivity.
  - eapply array_of_alloc; [rewrite array_of_eta; exact Ha|reflexivity].
  - reflexivity.
Qed.

(** ** Mask Builder: scalar thresholds *)

(** C2, as the specification states it, fails: the nodata cell of
    [raster_with_nodata] does not stay nodata in the mask of the
    standard deviation cell, it becomes an ordinary 0. *)
Lemma mask_builder_nodata_becomes_zero :
  exists s' t m,
    standard_deviation_cell (3 / 2) raster_with_nodata empty = inr (tt, s') /\
    scalars s' dynamic_threshold = Some t /\
    array_of s' thresholded_dfme = Some (uint8_array m) /\
    item (band1 raster_with_nodata) 0 0 = Some (Fin (-9999)) /\
    is_nodata (nodata raster_with_nodata) (Fin (-9999)) = true /\
    item m 0 0 = Some 0%Z /\
    is_nodata (nodata raster_with_nodata) (Fin 0) = false /\
    option_map (spec_mask_cell (nodata raster_with_nodata) t)
      (item (band1 raster_with_nodata) 0 0) = Some None.
Proof.
  destruct (standard_deviation_cell_run (3 / 2) raster_with_nodata empty)
    as (s' & Hrun & Ht & _ & Hm).
  assert (Hnd : is_nodata (nodata raster_with_nodata) (Fin (-9999)) = true)
    by apply feq_same.
  eexists s', _, _. repeat (split; [eassumption || reflexivity|]).
  split; [|split; [apply feq_diff; lra|]].
  - rewrite item_mask_scalar, item_nodata_to_nan.
    change (item (band1 raster_with_nodata) 0 0) with (Some (Fin (-9999))).
    unfold option_map. rewrite Hnd. reflexivity.
  - change (item (band1 raster_with_nodata) 0 0) with (Some (Fin (-9999))).
    unfold option_map, spec_mask_cell, is_valid. rewrite Hnd. reflexivity.
Qed.

(** In the mask made from the loaded raster and any number [t], a cell
    is 1 exactly when the sample of the raster is valid and strictly
    below [t]. *)
Lemma mask_cells_scalar (src : dataset) (t : float) :
  mask_cells src t (np.astype_uint8 (np.less_scalar (nodata_to_nan src) t)).
Proof.
  intros i j x Hx.
  rewrite item_mask_scalar, item_nodata_to_nan, Hx. simpl option_map.
  unfold is_valid.
  destruct (is_nodata (nodata src) x) eqn:Hnd; simpl.
  - rewrite andb_false_r. repeat split; intros; try reflexivity;
      try discriminate; destruct H; discriminate.
  - rewrite andb_true_r. repeat split.
    + destruct (flt x t) eqn:Hb; [|discriminate].
      destruct x; [discriminate|reflexivity].
    + destruct (flt x t) eqn:Hb; [|discriminate]. now apply flt_below.
    + intros [_ Hb]. apply flt_below in Hb. now rewrite Hb.
    + intros [_ Hb]. apply flt_not_below in Hb. now rewrite Hb.
    + intros Hnan. destruct x; [reflexivity|discriminate].
Qed.

(** C2, amended.  Whatever scalar threshold [t] is in
    [dynamic_threshold], and so for the threshold left by each of the
    three strategies that produce a number (the standard deviation
    cell for every factor, the percentile cell for every cutoff, the
    k-means cell for every number of clusters and seed), a cell of the
    mask is 1 exactly when the sample of the input raster is valid and
    strictly below [t]; it is 0 when the sample is valid and not below
    [t], and also 0 when the sample is nodata or NaN. *)
Theorem mask_builder_scalar (lloyd : nat -> Z -> list R -> list R)
    (src : dataset) (s : state) :
  (forall s1 t,
     array_of s1 dfme_data = Some (float_array (nodata_to_nan src)) ->
     scalars s1 dynamic_threshold = Some t ->
     exists s' m,
       apply_threshold s1 = inr (tt, s') /\
       scalars s' dynamic_threshold = Some t /\
       array_of s' thresholded_dfme = Some (uint8_array m) /\
       mask_cells src t m) /\
  (forall k, exists s' t m,
     standard_deviation_cell k src s = inr (tt, s') /\
     scalars s' dynamic_threshold = Some t /\
     array_of s' thresholded_dfme = Some (uint8_array m) /\
     mask_cells src t m) /\
  (forall p s',
     on_raster src (percentile_cell p) s = inr (tt, s') ->
     exists t m,
       scalars s' dynamic_threshold = Some t /\
       array_of s' thresholded_dfme = Some (uint8_array m) /\
       mask_cells src t m) /\
  (forall n seed s',
     on_raster src (kmeans_cell lloyd n seed) s = inr (tt, s') ->
     exists t m,
       scalars s' dynamic_threshold = Some t /\
       array_of s' thresholded_dfme = Some (uint8_array m) /\
       mask_cells src t m).
Proof.
  split; [|split; [|split]].
  - intros s1 t Ha Ht. rewrite (apply_threshold_run s1 _ t Ha Ht).
    eexists _, _. split; [reflexivity|]. split; [exact Ht|].
    split; [apply array_of_new|apply mask_cells_scalar].
  - intros k.
    destruct (standard_deviation_cell_run k src s) as (s' & Hrun & Ht & _ & Hm).
    eexists s', _, _. repeat (split; [eassumption|]).
    apply mask_cells_scalar.
  - intros p s' Hrun.
    rewrite on_raster_run, (percentile_cell_run p _ _ (array_of_loaded src s))
      in Hrun.
    simpl samples in Hrun.
    destruct (np.nanpercentile (ravel (nodata_to_nan src)) p) as [e|t];
      [discriminate|].
    injection Hrun as <-. exists t. eexists.
    split; [reflexivity|]. split; [apply array_of_new|apply mask_cells_scalar].
  - intros n seed s' Hrun.
    rewrite on_raster_run, (kmeans_cell_run lloyd n seed _ _ (array_of_loaded src s))
      in Hrun.
    simpl samples in Hrun.
    destruct (sklearn.KMeans_fit lloyd n seed _) as [e|centers]; [discriminate|].
    destruct (py_min centers) as [e|t]; [discriminate|].
    injection Hrun as <-. exists (Fin t). eexists.
    split; [reflexivity|]. split; [apply array_of_new|apply mask_cells_scalar].
Qed.

(** The raster with a nodata cell against the threshold 1: the mask is
    0 at the nodata cell and 1 at the sample 0. *)
Lemma mask_builder_scalar_witness :
  exists s' m,
    apply_threshold (loaded_with_threshold raster_with_nodata (Fin 1))
    = inr (tt, s') /\
    scalars s' dynamic_threshold = Some (Fin 1) /\
    array_of s' thresholded_dfme = Some (uint8_array m) /\
    mask_cells raster_with_nodata (Fin 1) m.
Proof.
  apply (proj1 (mask_builder_scalar (fun _ _ l => l) raster_with_nodata empty));
    reflexivity.
Defined.

(** ** Local-Adaptive strategy *)

(** C7.  The local adaptive cell fails, with the ValueError of
    [threshold_local] on the parameter, whenever [block_size] is even;
    the block sizes with which it runs to its end are exactly the
    positive odd ones. *)
Theorem local_adaptive_block_size (src : dataset) (b : Z) (off : R) (s : state) :
  (Z.even b = true ->
   on_raster src (local_cell b off) s = inl (ValueError block_size_even)) /\
  ((exists s', on_raster src (local_cell b off) s = inr (tt, s')) <->
   Z.odd b = true /\ (0 < b)%Z).
Proof.
  rewrite on_raster_run, (local_cell_run b off _ _ (array_of_loaded src s)).
  split.
  - intros He. now rewrite threshold_local_even.
  - rewrite <- (threshold_local_accepts (nodata_to_nan src) b off). simpl samples.
    destruct (skimage.threshold_local (nodata_to_nan src) b off) as [e|t]; split.
    + intros [s' H]. discriminate.
    + intros [t H]. discriminate.
    + intros _. now exists t.
    + intros _. eexists. reflexivity.
Qed.

(** [block_size = 10] is refused. *)
Lemma local_adaptive_block_size_witness :
  on_raster raster_one_to_five (local_cell 10 0) empty
  = inl (ValueError block_size_even).
Proof.
  apply (proj1 (local_adaptive_block_size raster_one_to_five 10 0 empty)).
  reflexivity.
Defined.


(** ** Rasters without any valid sample *)

Lemma flt_nan_r (x : float) : flt x NaN = false.
Proof. now destruct x. Qed.

Lemma mask_nan_threshold (a : ndarray float) (i j : nat) (z : Z) :
  item (np.astype_uint8 (np.less_scalar a NaN)) i j = Some z -> z = 0%Z.
Proof.
  rewrite item_mask_scalar.
  destruct (item a i j) as [x|]; [|discriminate].
  simpl. rewrite flt_nan_r. congruence.
Qed.

Lemma remove_nan_nil (l : list float) (x : float) :
  np.remove_nan l = [] -> In x l -> x = NaN.
Proof.
  induction l as [|[|r] l IH]; simpl; intros He Hin.
  - contradiction.
  - destruct Hin as [<-|Hin]; auto.
  - discriminate.
Qed.

Lemma mask_nan_sample (a t : ndarray float) (i j : nat) (z : Z) :
  (forall x, In x (ravel a) -> x = NaN) ->
  item (np.astype_uint8 (np.less a t)) i j = Some z -> z = 0%Z.
Proof.
  intros Hnan. rewrite item_mask_local.
  destruct (item a i j) as [x|] eqn:Hx; [|discriminate].
  rewrite (Hnan x (item_in_ravel a i j x Hx)).
  destruct (item t i j); [|discriminate]. simpl. congruence.
Qed.

Lemma nanpercentile_empty (l : list float) (p : R) :
  np.remove_nan l = [] -> 0 <= p <= 100 -> np.nanpercentile l p = inr NaN.
Proof.
  intros He Hp. unfold np.nanpercentile. rewrite He.
  destruct (Rle_dec 0 (p / 100)) as [_|Hn]; [|exfalso; lra].
  destruct (Rle_dec (p / 100) 1) as [_|Hn]; [reflexivity|exfalso; lra].
Qed.

Lemma valid_sample_view_all_nodata : valid_sample_view raster_all_nodata = [].
Proof.
  unfold valid_sample_view. simpl.
  assert (H : is_valid (Some (Fin (-9999))) (Fin (-9999)) = false).
  { unfold is_valid, is_nodata. now rewrite feq_same. }
  now rewrite H.
Qed.

(** C4, as the specification states it, fails: on a raster that holds
    nothing but nodata the standard deviation cell does not fail, it
    runs to its end with NaN as the threshold. *)
Lemma empty_view_no_failure :
  valid_sample_view raster_all_nodata = [] /\
  exists s',
    standard_deviation_cell (3 / 2) raster_all_nodata empty = inr (tt, s') /\
    scalars s' dynamic_threshold = Some NaN.
Proof.
  split; [exact valid_sample_view_all_nodata|].
  destruct (standard_deviation_cell_run (3 / 2) raster_all_nodata empty)
    as (s' & Hrun & Ht & _).
  exists s'. split; [exact Hrun|].
  rewrite Ht, nanmean_empty; [reflexivity|].
  rewrite remove_nan_nodata_to_nan. exact valid_sample_view_all_nodata.
Qed.

(** C4, amended.  On a raster without any valid sample only the
    k-means cell fails (the ValueError of [fit] on an empty sample).
    The standard deviation cell and the percentile cell run to their
    end with NaN as the threshold, the local adaptive cell (for a
    positive odd block size) runs to its end as well, and the mask
    they leave is all zeros. *)
Theorem empty_view_outcomes (lloyd : nat -> Z -> list R -> list R)
    (src : dataset) (s : state) :
  valid_sample_view src = [] ->
  (forall k, exists s' m,
     standard_deviation_cell k src s = inr (tt, s') /\
     scalars s' dynamic_threshold = Some NaN /\
     array_of s' thresholded_dfme = Some (uint8_array m) /\
     forall i j z, item m i j = Some z -> z = 0%Z) /\
  (forall p, 0 <= p <= 100 -> exists s' m,
     on_raster src (percentile_cell p) s = inr (tt, s') /\
     scalars s' dynamic_threshold = Some NaN /\
     array_of s' thresholded_dfme = Some (uint8_array m) /\
     forall i j z, item m i j = Some z -> z = 0%Z) /\
  (forall b off, Z.odd b = true -> (0 < b)%Z -> exists s' m,
     on_raster src (local_cell b off) s = inr (tt, s') /\
     array_of s' thresholded_dfme = Some (uint8_array m) /\
     forall i j z, item m i j = Some z -> z = 0%Z) /\
  (forall n seed, (0 < n)%nat ->
     on_raster src (kmeans_cell lloyd n seed) s = inl (ValueError no_samples)).
Proof.
  intros He.
  assert (He' : np.remove_nan (ravel (nodata_to_nan src)) = [])
    by (now rewrite remove_nan_nodata_to_nan).
  split; [|split; [|split]].
  - intros k.
    destruct (standard_deviation_cell_run k src s) as (s' & Hrun & Ht & _ & Hm).
    rewrite (nanmean_empty _ He') in Ht, Hm. simpl in Ht, Hm.
    eexists s', _. repeat (split; [eassumption|]).
    apply mask_nan_threshold.
  - intros p Hp.
    rewrite on_raster_run, (percentile_cell_run p _ _ (array_of_loaded src s)).
    simpl samples. rewrite (nanpercentile_empty _ p He' Hp).
    eexists _, _. split; [reflexivity|]. split; [reflexivity|].
    split; [apply array_of_new|]. apply mask_nan_threshold.
  - intros b off Ho Hb.
    rewrite on_raster_run, (local_cell_run b off _ _ (array_of_loaded src s)).
    rewrite (threshold_local_positive _ b off Ho Hb).
    eexists _, _. split; [reflexivity|]. split; [apply array_of_new|].
    intros i j z. apply mask_nan_sample.
    intros x. now apply remove_nan_nil.
  - intros n seed Hn.
    rewrite on_raster_run. unfold kmeans_cell. apply bind_raise.
    rewrite (kmeans_threshold_run lloyd n seed _ _ (array_of_loaded src s)).
    simpl samples. rewrite He'. unfold sklearn.KMeans_fit.
    destruct n; [lia|reflexivity].
Qed.

(** K-means with 3 clusters on a raster of NaNs. *)
Lemma empty_view_outcomes_witness :
  on_raster raster_all_nan (kmeans_cell (fun _ _ X => X) 3 42) empty
  = inl (ValueError no_samples).
Proof.
  apply (empty_view_outcomes (fun _ _ X => X) raster_all_nan empty).
  - reflexivity.
  - lia.
Defined.

(** ** What the cells do to the arrays they are given *)

Lemma preserves_ret {A} (a : A) : preserves_heap (ret a).
Proof. intros s a' s' [= _ <-]. auto. Qed.

Lemma preserves_raise {A} (e : exn) : preserves_heap (@raise A e).
Proof. intros s a s' [=]. Qed.

Lemma preserves_lift {A} (r : result A) : preserves_heap (lift r).
Proof. destruct r; [apply preserves_raise|apply preserves_ret]. Qed.

Lemma preserves_bind {A B} (c : M A) (k : A -> M B) :
  preserves_heap c -> (forall a, preserves_heap (k a)) ->
  preserves_heap (bind c k).
Proof.
  intros Hc Hk s b s'' H. unfold bind in H.
  destruct (c s) as [e|[a s']] eqn:Hcs; [discriminate|].
  destruct (Hc _ _ _ Hcs) as [Hlen Hnth].
  destruct (Hk a _ _ _ H) as [Hlen' Hnth'].
  split; [lia|]. intros r Hr. rewrite Hnth' by lia. now apply Hnth.
Qed.

Lemma preserves_new (o : object) : preserves_heap (new o).
Proof.
  intros s r s' [= _ <-]. simpl. rewrite length_app. simpl. split; [lia|].
  intros r' Hr. now apply nth_error_before_snoc.
Qed.

Lemma preserves_assign (x : avar) (r : ref) : preserves_heap (assign x r).
Proof. intros s a s' [= _ <-]. auto. Qed.

Lemma preserves_set (x : svar) (v : float) : preserves_heap (set x v).
Proof. intros s a s' [= _ <-]. auto. Qed.

Lemma preserves_get (x : svar) : preserves_heap (get x).
Proof.
  intros s a s'. unfold get.
  destruct (scalars s x); intros [= _ <-]. auto.
Qed.

Lemma preserves_lookup (x : avar) : preserves_heap (lookup x).
Proof.
  intros s a s'. unfold lookup.
  destruct (arrays s x); intros [= _ <-]. auto.
Qed.

Lemma preserves_load (x : avar) : preserves_heap (load x).
Proof.
  apply preserves_bind; [apply preserves_lookup|].
  intros r s a s'. destruct (nth_error (heap s) r); intros [= _ <-]. auto.
Qed.

Create HintDb frame.
#[local] Hint Resolve preserves_ret preserves_raise preserves_lift
  preserves_new preserves_assign preserves_set preserves_get
  preserves_lookup preserves_load : frame.
#[local] Hint Extern 1 (preserves_heap (bind _ _)) =>
  apply preserves_bind; [|intro] : frame.

Ltac frame := auto 30 with frame.

Lemma ignore_nodata_run (src : dataset) (s : state) (r : ref) (o : object) :
  arrays s dfme_data = Some r ->
  nth_error (heap s) r = Some o ->
  ignore_nodata src s
  = inr (tt,
         {| heap := replace_nth r
                      (float_array
                         (amap (fun x => if is_nodata (nodata src) x then NaN else x)
                            (samples o)))
                      (heap s);
            arrays := arrays s; scalars := scalars s |}).
Proof.
  intros Hr Ho. unfold ignore_nodata, setitem_mask, load, lookup, update, bind.
  repeat first [rewrite Hr | rewrite Ho | progress cbv beta iota].
  unfold np.equal_scalar. now rewrite zip_with_amap_r.
Qed.

Lemma nth_error_replace_nth {A} (n : nat) (x y : A) (l : list A) :
  nth_error l n = Some y -> nth_error (replace_nth n x l) n = Some x.
Proof.
  revert n; induction l as [|z l IH]; intros [|n]; simpl; try discriminate; auto.
Qed.

(** C9, as the specification states it, fails: the first statements of
    the standard deviation cell read the raster into [dfme_data] and
    then overwrite the nodata cell of that very array with NaN.  No new
    array is made: [dfme_data] refers to the same object, whose values
    have changed. *)
Lemma nodata_overwritten_in_place :
  exists s1 s2,
    read_dfme raster_with_nodata empty = inr (tt, s1) /\
    ignore_nodata raster_with_nodata s1 = inr (tt, s2) /\
    arrays s2 dfme_data = arrays s1 dfme_data /\
    length (heap s2) = length (heap s1) /\
    array_of s1 dfme_data = Some (float_array [[Fin (-9999); Fin 0; Fin 2]]) /\
    array_of s2 dfme_data = Some (float_array [[NaN; Fin 0; Fin 2]]) /\
    ~ preserves_heap (ignore_nodata raster_with_nodata).
Proof.
  assert (Hrun : ignore_nodata raster_with_nodata
                   {| heap := [float_array (band1 raster_with_nodata)];
                      arrays := fun y => if avar_eqb dfme_data y then Some 0%nat
                                         else None;
                      scalars := fun _ => None |}
                 = inr (tt,
                        {| heap := [float_array [[NaN; Fin 0; Fin 2]]];
                           arrays := fun y => if avar_eqb dfme_data y then Some 0%nat
                                              else None;
                           scalars := fun _ => None |})).
  { erewrite ignore_nodata_run by reflexivity.
    unfold amap, is_nodata. simpl.
    repeat (destruct (Req_dec_T _ _); try lra). reflexivity. }
  eexists _, _. split; [reflexivity|]. split; [exact Hrun|].
  repeat (split; [reflexivity|]).
  intros Hp. destruct (Hp _ _ _ Hrun) as [_ Hnth].
  specialize (Hnth 0%nat). simpl in Hnth.
  assert (H : Some (float_array [[NaN; Fin 0; Fin 2]])
              = Some (float_array [[Fin (-9999); Fin 0; Fin 2]]))
    by (apply Hnth; lia).
  discriminate.
Qed.

(** C9, amended.  Computing a threshold, applying it and multiplying by
    the road mask leave every array that exists unchanged and put their
    results in new arrays.  The exception is the nodata substitution
    that opens the standard deviation cell: it writes into the array
    [dfme_data] refers to, replacing by NaN exactly the samples equal
    to nodata; the other samples of that array, and all other arrays,
    stay as they are. *)
Theorem arrays_unchanged_but_nodata (lloyd : nat -> Z -> list R -> list R) :
  (forall src, preserves_heap (read_dfme src)) /\
  (forall k, preserves_heap (standard_deviation_threshold k)) /\
  (forall p, preserves_heap (percentile_threshold p)) /\
  (forall b off, preserves_heap (local_threshold b off)) /\
  (forall n seed, preserves_heap (kmeans_threshold lloyd n seed)) /\
  preserves_heap apply_threshold /\
  preserves_heap apply_local_threshold /\
  (forall dfme road, preserves_heap (multiply_cell dfme road)) /\
  (forall src s r o,
     arrays s dfme_data = Some r -> nth_error (heap s) r = Some o ->
     exists s',
       ignore_nodata src s = inr (tt, s') /\
       arrays s' = arrays s /\
       nth_error (heap s') r
       = Some (float_array
                 (amap (fun x => if is_nodata (nodata src) x then NaN else x)
                    (samples o))) /\
       forall r', r' <> r -> nth_error (heap s') r' = nth_error (heap s) r').
Proof.
  split; [|split; [|split; [|split; [|split; [|split; [|split; [|split]]]]]]].
  - intros src. unfold read_dfme. frame.
  - intros k. unfold standard_deviation_threshold. frame.
  - intros p. unfold percentile_threshold. frame.
  - intros b off. unfold local_threshold. frame.
  - intros n seed. unfold kmeans_threshold. frame.
  - unfold apply_threshold. frame.
  - unfold apply_local_threshold. frame.
  - intros dfme road. unfold multiply_cell. frame.
  - intros src s r o Hr Ho.
    rewrite (ignore_nodata_run src s r o Hr Ho).
    eexists. split; [reflexivity|]. split; [reflexivity|]. simpl. split.
    + now apply nth_error_replace_nth with (y := o).
    + intros r' Hne. now apply replace_nth_other.
Qed.

(** ** The two global thresholds as binary64 numbers *)

Lemma count_false_isnan64 (l : list binary64.float64) :
  np.count_false (map binary64.isnan l) = length (binary64.remove_nan l).
Proof.
  unfold np.count_false, binary64.remove_nan.
  induction l as [|x l IH]; simpl; [reflexivity|].
  destruct (binary64.isnan x); simpl; auto.
Qed.







(** *** Global-Statistical strategy *)




(** On a raster without any valid sample the binary64 numbers agree
    with the cells above: both thresholds are NaN. *)
Lemma add_in_sequence_zeros (l : list binary64.float64) :
  (forall x, In x l -> x = binary64.zero) ->
  binary64.add_in_sequence l = binary64.zero.
Proof.
  unfold binary64.add_in_sequence.
  induction l as [|x l IH]; intros H; [reflexivity|].
  simpl. rewrite (H x) by now left.
  apply IH. intros y Hy. apply H. now right.
Qed.

Lemma no_valid_sample_binary64 (dfme_data : ndarray binary64.float64)
    (k p : binary64.float64) :
  binary64.remove_nan (ravel dfme_data) = [] ->
  binary64.standard_deviation_threshold binary64.add_in_sequence k dfme_data
  = binary64.nan /\
  (binary64.le binary64.zero (binary64.div p (binary64.of_Z 100)) = true ->
   binary64.le (binary64.div p (binary64.of_Z 100)) binary64.one = true ->
   binary64.percentile_threshold p dfme_data = inr binary64.nan).
Proof.
  intros He. split.
  - unfold binary64.standard_deviation_threshold, binary64.nanmean,
      binary64.replace_nan.
    rewrite count_false_isnan64, He, add_in_sequence_zeros; [reflexivity|].
    intros x Hx. apply in_map_iff in Hx as (y & <- & Hy).
    destruct (binary64.isnan y) eqn:E; [reflexivity|].
    assert (In y (binary64.remove_nan (ravel dfme_data)))
      by (apply filter_In; now rewrite E).
    rewrite He in H. contradiction.
  - intros H0 H1. unfold binary64.percentile_threshold, binary64.nanpercentile.
    now rewrite H0, H1, He.
Qed.

(** *** Integers as binary64 numbers *)

Lemma digits2_size (p : positive) : SpecFloat.digits2_pos p = Pos.size p.
Proof. induction p; simpl; congruence. Qed.

Lemma mul_half (M : positive) (e : Z) :
  SpecFloat.digits2_pos M = 53%positive -> (-1073 <= e <= 972)%Z ->
  binary64.mul (SpecFloat.S754_finite false M e) binary64.half
  = SpecFloat.S754_finite false M (e - 1).
Proof.
  intros Hd He.
  unfold binary64.mul, binary64.half, SpecFloat.SFmul.
  rewrite Pos.mul_comm.
  unfold SpecFloat.binary_round_aux, SpecFloat.shr_fexp.
  cbn [xorb Pos.mul].
  unfold SpecFloat.Zdigits2. cbn [SpecFloat.digits2_pos]. rewrite Hd.
  cbn [Pos.succ].
  unfold SpecFloat.fexp, SpecFloat.emin, binary64.prec, binary64.emax.
  replace (Z.max (105 + (e + -53) - 53) (3 - 1024 - 53) - (e + -53))%Z
    with 52%Z by lia.
  cbn [SpecFloat.shr SpecFloat.shr_record_of_loc SpecFloat.iter_pos
       SpecFloat.shr_1 orb].
  cbn [SpecFloat.loc_of_shr_record SpecFloat.shr_m SpecFloat.round_nearest_even].
  unfold SpecFloat.Zdigits2. rewrite Hd.
  replace (Z.max (53 + (e + -53 + 52) - 53) (3 - 1024 - 53) - (e + -53 + 52))%Z
    with 0%Z by lia.
  cbn [SpecFloat.shr SpecFloat.shr_m].
  replace (e + -53 + 52)%Z with (e - 1)%Z by lia.
  destruct (Z.leb_spec (e - 1) (1024 - 53)); [reflexivity|lia].
Qed.

Lemma digits2_iter_xO (m k : positive) :
  SpecFloat.digits2_pos (Pos.iter xO m k)
  = (SpecFloat.digits2_pos m + k)%positive.
Proof.
  induction k as [|k IH] using Pos.peano_ind.
  - simpl. lia.
  - rewrite Pos.iter_succ. simpl. rewrite IH. lia.
Qed.

Lemma Zpos_iter_xO (m k : positive) :
  Zpos (Pos.iter xO m k) = (Zpos m * 2 ^ Zpos k)%Z.
Proof.
  induction k as [|k IH] using Pos.peano_ind.
  - simpl. lia.
  - rewrite Pos.iter_succ, Pos2Z.inj_succ, Z.pow_succ_r by lia.
    rewrite Pos2Z.inj_xO, IH. lia.
Qed.

Lemma shl_align_small (m : positive) :
  (Zpos (SpecFloat.digits2_pos m) <= 53)%Z ->
  SpecFloat.digits2_pos (integer_mantissa m) = 53%positive /\
  (-52 <= integer_exponent m <= 0)%Z /\
  Zpos (integer_mantissa m) = (Zpos m * 2 ^ (- integer_exponent m))%Z.
Proof.
  intros Hd. unfold integer_mantissa, integer_exponent, SpecFloat.shl_align.
  rewrite Z.sub_0_r.
  destruct (Zpos (SpecFloat.digits2_pos m) - 53)%Z as [|p|p] eqn:E; simpl.
  - split; [lia|]. split; [lia|]. lia.
  - lia.
  - split; [rewrite digits2_iter_xO; lia|]. split; [lia|].
    rewrite Zpos_iter_xO. reflexivity.
Qed.

Lemma of_Z_pos (m : positive) :
  (Zpos (SpecFloat.digits2_pos m) <= 53)%Z ->
  binary64.of_Z (Zpos m)
  = SpecFloat.S754_finite false (integer_mantissa m) (integer_exponent m).
Proof.
  intros Hd.
  destruct (shl_align_small m Hd) as (HM & He & _).
  unfold binary64.of_Z, SpecFloat.binary_normalize, SpecFloat.binary_round.
  unfold SpecFloat.fexp, SpecFloat.emin, binary64.prec, binary64.emax.
  replace (Z.max (Zpos (SpecFloat.digits2_pos m) + 0 - 53) (3 - 1024 - 53))
    with (Zpos (SpecFloat.digits2_pos m) - 53)%Z by lia.
  fold (integer_mantissa m) (integer_exponent m).
  destruct (SpecFloat.shl_align m 0 (Z.pos (SpecFloat.digits2_pos m) - 53))
    as [mz ez] eqn:E.
  unfold integer_mantissa, integer_exponent in *. rewrite E in *. simpl in HM, He.
  unfold SpecFloat.binary_round_aux, SpecFloat.shr_fexp, SpecFloat.Zdigits2.
  rewrite HM.
  unfold SpecFloat.fexp, SpecFloat.emin.
  replace (Z.max (53 + ez - 53) (3 - 1024 - 53) - ez)%Z with 0%Z by lia.
  cbn [SpecFloat.shr SpecFloat.shr_record_of_loc SpecFloat.shr_m
       SpecFloat.loc_of_shr_record SpecFloat.round_nearest_even].
  unfold SpecFloat.Zdigits2. rewrite HM.
  replace (Z.max (53 + ez - 53) (3 - 1024 - 53) - ez)%Z with 0%Z by lia.
  cbn [SpecFloat.shr SpecFloat.shr_m].
  destruct (Z.leb_spec ez (1024 - 53)); [reflexivity|lia].
Qed.

Lemma normal_double (m : positive) :
  (Zpos (SpecFloat.digits2_pos m) < 53)%Z ->
  integer_mantissa (xO m) = integer_mantissa m /\
  integer_exponent (xO m) = (integer_exponent m + 1)%Z.
Proof.
  intros Hd. unfold integer_mantissa, integer_exponent, SpecFloat.shl_align.
  rewrite !Z.sub_0_r. cbn [SpecFloat.digits2_pos].
  rewrite Pos2Z.inj_succ.
  destruct (Zpos (SpecFloat.digits2_pos m) - 53)%Z as [|p|p] eqn:E; try lia.
  destruct (Pos.eq_dec p 1) as [->|Hp].
  - replace (Z.succ (Zpos (SpecFloat.digits2_pos m)) - 53)%Z with 0%Z by lia.
    simpl. split; reflexivity.
  - replace (Z.succ (Zpos (SpecFloat.digits2_pos m)) - 53)%Z
      with (Zneg (Pos.pred p)) by lia.
    cbn [fst snd]. split; [|lia].
    rewrite Pos.iter_swap, <- Pos.iter_succ.
    rewrite Pos.succ_pred by assumption. reflexivity.
Qed.

Lemma floor_of_Z_pos (m : positive) :
  (Zpos (SpecFloat.digits2_pos m) <= 53)%Z ->
  binary64.floor (binary64.of_Z (Zpos m)) = Zpos m.
Proof.
  intros Hd. rewrite of_Z_pos by assumption.
  destruct (shl_align_small m Hd) as (_ & He & HM).
  unfold binary64.floor. rewrite HM.
  replace (integer_exponent m) with (- - integer_exponent m)%Z at 2 by lia.
  rewrite Z.shiftl_opp_r, Z.shiftr_div_pow2 by lia.
  apply Z.div_mul. apply Z.pow_nonzero; lia.
Qed.

Lemma sub_same (s : bool) (M : positive) (e : Z) :
  binary64.sub (SpecFloat.S754_finite s M e) (SpecFloat.S754_finite s M e)
  = binary64.zero.
Proof.
  unfold binary64.sub, SpecFloat.SFsub. now rewrite Z.sub_diag.
Qed.

(** Half of an even integer below 2^53 is computed exactly. *)
Lemma mul_half_even (m : positive) :
  (Zpos (SpecFloat.digits2_pos m) < 53)%Z ->
  binary64.mul (binary64.of_Z (Zpos (xO m))) binary64.half
  = binary64.of_Z (Zpos m).
Proof.
  intros Hd.
  rewrite !of_Z_pos by (simpl; lia).
  destruct (normal_double m Hd) as [-> ->].
  destruct (shl_align_small m) as (HM & He & _); [lia|].
  rewrite mul_half by (assumption || lia).
  f_equal. lia.
Qed.

Lemma half_is :
  binary64.div (binary64.of_Z 50) (binary64.of_Z 100) = binary64.half.
Proof. vm_compute. reflexivity. Qed.

Lemma digits2_bound (m : positive) :
  (Zpos m < 2 ^ 52)%Z -> (Zpos (SpecFloat.digits2_pos m) < 53)%Z.
Proof.
  intros H. rewrite digits2_size.
  pose proof (Pos.size_le m) as Hs.
  apply Pos2Z.pos_le_pos in Hs. rewrite Pos2Z.inj_pow in Hs.
  change (Zpos 2) with 2%Z in Hs.
  apply (Z.pow_lt_mono_r_iff 2); [lia|lia|].
  change (2 ^ 53)%Z with (2 * 2 ^ 52)%Z. lia.
Qed.

Lemma le_double_false (m : positive) :
  (Zpos (SpecFloat.digits2_pos m) < 53)%Z ->
  binary64.le (binary64.of_Z (Zpos (xO m))) (binary64.of_Z (Zpos m)) = false.
Proof.
  intros Hd. rewrite !of_Z_pos by (simpl; lia).
  destruct (normal_double m Hd) as [-> ->].
  unfold binary64.le, SpecFloat.SFleb, SpecFloat.SFcompare.
  now rewrite (proj2 (Z.compare_gt_iff _ _)) by lia.
Qed.




(** *** Sorting *)

Lemma compare_antisym (x y : binary64.float64) :
  SpecFloat.SFcompare y x = option_map CompOpp (SpecFloat.SFcompare x y).
Proof.
  destruct x as [sx|sx| |sx mx ex], y as [sy|sy| |sy my ey]; simpl;
    try reflexivity;
    try (destruct sx; reflexivity); try (destruct sy; reflexivity);
    try (destruct sx, sy; reflexivity).
  f_equal.
  destruct sx, sy; try reflexivity;
    rewrite (Z.compare_antisym ex ey);
    destruct (ex ?= ey)%Z; simpl; try reflexivity;
    rewrite ?CompOpp_involutive, Pos.compare_cont_antisym; reflexivity.
Qed.

Lemma le_total (x y : binary64.float64) :
  binary64.isnan x = false -> binary64.isnan y = false ->
  binary64.le x y = false -> binary64.le y x = true.
Proof.
  unfold binary64.le, SpecFloat.SFleb. intros Hx Hy.
  rewrite (compare_antisym x y).
  destruct (SpecFloat.SFcompare x y) as [[| |]|] eqn:E; simpl; try congruence.
  destruct x, y; simpl in *; try discriminate;
    repeat match goal with s : bool |- _ => destruct s end; discriminate.
Qed.

Lemma insert_permutation (x : binary64.float64) (l : list binary64.float64) :
  Permutation (binary64.insert x l) (x :: l).
Proof.
  induction l as [|y l IH]; simpl; [reflexivity|].
  destruct (binary64.le x y); [reflexivity|].
  rewrite IH. apply perm_swap.
Qed.

Lemma sort_permutation (l : list binary64.float64) :
  Permutation (binary64.sort l) l.
Proof.
  induction l as [|x l IH]; simpl; [reflexivity|].
  fold (binary64.sort l). rewrite insert_permutation. now constructor.
Qed.

Lemma insert_ascending (x : binary64.float64) (l : list binary64.float64) :
  binary64.isnan x = false -> Forall (fun y => binary64.isnan y = false) l ->
  ascending l -> ascending (binary64.insert x l).
Proof.
  unfold ascending. intros Hx Hl Hs.
  induction l as [|y l IH]; simpl; [repeat constructor|].
  inversion Hl as [|? ? Hy Hl']; subst.
  destruct (binary64.le x y) eqn:E.
  - constructor; [assumption|]. now constructor.
  - apply Sorted_inv in Hs as [Hs Hhd]. constructor; [now apply IH|].
    specialize (IH Hl' Hs).
    destruct l as [|z l]; simpl.
    + constructor. now apply le_total.
    + destruct (binary64.le x z).
      * constructor. now apply le_total.
      * constructor. now inversion Hhd.
Qed.

Lemma remove_nan_not_nan (a : list binary64.float64) :
  Forall (fun y => binary64.isnan y = false) (binary64.remove_nan a).
Proof.
  apply Forall_forall. intros x Hx. apply filter_In in Hx as [_ Hx].
  now destruct (binary64.isnan x).
Qed.

Lemma sort_ascending (l : list binary64.float64) :
  Forall (fun y => binary64.isnan y = false) l -> ascending (binary64.sort l).
Proof.
  induction 1 as [|x l Hx Hl IH]; simpl; [constructor|].
  fold (binary64.sort l). apply insert_ascending; auto.
  eapply Permutation_Forall; [symmetry; apply sort_permutation|assumption].
Qed.

(** *** Percentile strategy *)




Lemma eq_refl_finite (a : binary64.float64) :
  binary64.finite a = true -> binary64.eq a a = true.
Proof.
  destruct a as [s| | |s m e]; try discriminate; intros _;
    unfold binary64.eq, SpecFloat.SFeqb; simpl; [reflexivity|].
  destruct s; rewrite Z.compare_refl, Pos.compare_cont_refl; reflexivity.
Qed.

(** [a + d * 0] is [a] for finite [a] and [d]. *)
Lemma add_mul_zero (a d : binary64.float64) :
  binary64.finite a = true -> binary64.finite d = true ->
  binary64.eq (binary64.add a (binary64.mul d binary64.zero)) a = true.
Proof.
  intros Ha Hd.
  destruct d as [sd| | |sd md ed]; try discriminate;
    destruct a as [sa| | |sa ma ea]; try discriminate;
    try (destruct sa, sd; reflexivity);
    apply (eq_refl_finite (SpecFloat.S754_finite sa ma ea)); reflexivity.
Qed.

(** [a - (a - a) * (1 - 1)] is [a] for a finite [a]. *)
Lemma lerp_last (a : binary64.float64) :
  binary64.finite a = true -> binary64.lerp a a binary64.one = a.
Proof.
  intros Ha. unfold binary64.lerp.
  change (binary64.le binary64.half binary64.one) with true. cbv iota.
  change (binary64.sub binary64.one binary64.one) with binary64.zero.
  destruct a as [[|]| | |sa ma ea]; try discriminate; try reflexivity.
  rewrite sub_same. reflexivity.
Qed.

Lemma nanpercentile_in_range64 (a : list binary64.float64) (p : binary64.float64) :
  binary64.le binary64.zero (binary64.div p (binary64.of_Z 100)) = true ->
  binary64.le (binary64.div p (binary64.of_Z 100)) binary64.one = true ->
  binary64.remove_nan a <> [] ->
  binary64.nanpercentile a p
  = inr (binary64.quantile (binary64.remove_nan a)
           (binary64.div p (binary64.of_Z 100))).
Proof.
  intros H0 H1 Hne. unfold binary64.nanpercentile. rewrite H0, H1.
  destruct (binary64.remove_nan a); [congruence|reflexivity].
Qed.

(** At [p = 50] with an odd number of valid samples the rank
    [(n - 1) * 0.5] is the whole number [m] of the middle position,
    computed exactly, and the interpolation returns the sample there. *)
Lemma percentile_median_odd (dfme_data : ndarray binary64.float64)
    (m : nat) (a : binary64.float64) :
  let arr := binary64.remove_nan (ravel dfme_data) in
  let n := length arr in
  let s := binary64.sort arr in
  arr <> [] ->
  n = (2 * m + 1)%nat -> (Z.of_nat n < 2 ^ 53)%Z ->
  nth_error s m = Some a -> binary64.finite a = true ->
  (forall b, nth_error s (S m) = Some b ->
             binary64.finite (binary64.sub b a) = true) ->
  exists t,
    binary64.percentile_threshold (binary64.of_Z 50) dfme_data = inr t /\
    binary64.eq t a = true.
Proof.
  intros arr n s Hne Hn Hbound Ha Hfa Hgap.
  assert (Hlen : length s = n)
    by (apply Permutation_length, sort_permutation).
  unfold binary64.percentile_threshold.
  rewrite nanpercentile_in_range64
    by (try rewrite half_is; try reflexivity; exact Hne).
  rewrite half_is.
  eexists. split; [reflexivity|].
  unfold binary64.quantile. fold arr. fold n. fold s.
  destruct m as [|m'].
  - (* a single sample *)
    assert (Hs : s = [a]).
    { destruct s as [|y [|z s']]; simpl in *; try lia. congruence. }
    rewrite Hn, Hs. simpl.
    change (binary64.mul (binary64.of_Z 0) binary64.half) with binary64.zero.
    simpl. unfold binary64.getitem. simpl.
    change (binary64.sub binary64.zero (binary64.of_Z (-1))) with binary64.one.
    rewrite lerp_last by assumption. now apply eq_refl_finite.
  - set (m := S m') in *.
    destruct (Z.of_nat m) as [|pm|pm] eqn:Em; try lia.
    assert (Hd : (Zpos (SpecFloat.digits2_pos pm) < 53)%Z)
      by (apply digits2_bound; lia).
    replace (Z.of_nat n - 1)%Z with (Zpos (xO pm)) by lia.
    rewrite (mul_half_even pm Hd).
    unfold binary64.get_indexes.
    replace (Z.of_nat n - 1)%Z with (Zpos (xO pm)) by lia.
    rewrite (le_double_false pm Hd).
    rewrite (floor_of_Z_pos pm) by lia.
    rewrite (of_Z_pos pm) by lia.
    change (binary64.lt
              (SpecFloat.S754_finite false (integer_mantissa pm)
                 (integer_exponent pm))
              binary64.zero) with false.
    cbv iota. simpl binary64.isnan. cbv beta iota zeta.
    rewrite (of_Z_pos pm) by lia.
    rewrite sub_same.
    unfold binary64.getitem. rewrite Hlen.
    change (Zpos pm <? 0)%Z with false. cbv iota.
    replace (Zpos pm + 1 <? 0)%Z with false by (symmetry; apply Z.ltb_ge; lia).
    replace (Z.to_nat (Zpos pm)) with m by lia.
    replace (Z.to_nat (Zpos pm + 1)) with (S m) by lia.
    rewrite (nth_error_nth s m binary64.nan Ha).
    destruct (nth_error s (S m)) as [b|] eqn:Hb.
    2:{ apply nth_error_None in Hb. lia. }
    rewrite (nth_error_nth s (S m) binary64.nan Hb).
    unfold binary64.lerp.
    change (binary64.le binary64.half binary64.zero) with false. cbv iota.
    apply add_mul_zero; auto.
Qed.



(** * Further properties of the cells *)

(** ** The nodata substitution *)

Lemma replace_nth_same {A} (n : nat) (x : A) (l : list A) :
  nth_error l n = Some x -> replace_nth n x l = l.
Proof.
  revert n; induction l as [|y l IH]; intros [|n]; simpl; try discriminate.
  - now intros [= ->].
  - intros H. now rewrite IH.
Qed.

Lemma amap_same {A} (f : A -> A) (a : ndarray A) :
  (forall i j x, item a i j = Some x -> f x = x) -> amap f a = a.
Proof.
  unfold amap. induction a as [|row a IH]; intros H; simpl; [reflexivity|].
  f_equal.
  - assert (Hrow : forall j x, nth_error row j = Some x -> f x = x)
      by (intros j x Hx; exact (H 0%nat j x Hx)).
    clear H IH. induction row as [|y row IH]; simpl; [reflexivity|].
    f_equal.
    + exact (Hrow 0%nat y eq_refl).
    + apply IH. intros j x Hx. exact (Hrow (S j) x Hx).
  - apply IH. intros i j x Hx. exact (H (S i) j x Hx).
Qed.

Lemma is_nodata_nan (nd : option float) : is_nodata nd NaN = false.
Proof. now destruct nd. Qed.

Lemma is_nodata_none_or_nan (nd : option float) (x : float) :
  nd = None \/ nd = Some NaN -> is_nodata nd x = false.
Proof. intros [->| ->]; [reflexivity|]. now destruct x. Qed.

(** X1.  When the raster declares no nodata value ([src.nodata] is
    [None]), or declares NaN, the nodata substitution changes nothing:
    no sample compares equal to it, and the array [dfme_data] refers
    to keeps all its samples. *)
Theorem nodata_none_or_nan_no_change (src : dataset) (s : state) (r : ref)
    (a : ndarray float) :
  arrays s dfme_data = Some r ->
  nth_error (heap s) r = Some (float_array a) ->
  nodata src = None \/ nodata src = Some NaN ->
  exists s',
    ignore_nodata src s = inr (tt, s') /\
    heap s' = heap s /\ arrays s' = arrays s /\ scalars s' = scalars s.
Proof.
  intros Hr Ho Hnd.
  rewrite (ignore_nodata_run src s r _ Hr Ho).
  eexists. split; [reflexivity|]. simpl. repeat split.
  rewrite amap_same.
  - now apply replace_nth_same.
  - intros i j x _. now rewrite is_nodata_none_or_nan.
Qed.

(** On the raster of 3, 1, 5, 2, 4 and a NaN, which has no nodata
    value. *)
Lemma nodata_none_or_nan_no_change_witness :
  exists s',
    ignore_nodata raster_one_to_five (just_read raster_one_to_five)
    = inr (tt, s') /\
    heap s' = heap (just_read raster_one_to_five) /\
    arrays s' = arrays (just_read raster_one_to_five) /\
    scalars s' = scalars (just_read raster_one_to_five).
Proof.
  apply (nodata_none_or_nan_no_change raster_one_to_five
           (just_read raster_one_to_five) 0%nat
           (band1 raster_one_to_five)).
  - reflexivity.
  - reflexivity.
  - left. reflexivity.
Defined.

(** X2.  After the nodata substitution no sample of [dfme_data]
    compares equal to the nodata value any more, and carrying the
    substitution out a second time leaves the state as it is. *)
Theorem nodata_substitution_settles (src : dataset) (s : state) (r : ref)
    (o : object) :
  arrays s dfme_data = Some r ->
  nth_error (heap s) r = Some o ->
  exists s' a',
    ignore_nodata src s = inr (tt, s') /\
    nth_error (heap s') r = Some (float_array a') /\
    (forall i j x, item a' i j = Some x -> is_nodata (nodata src) x = false) /\
    ignore_nodata src s' = inr (tt, s').
Proof.
  intros Hr Ho.
  rewrite (ignore_nodata_run src s r o Hr Ho).
  set (f := fun x => if is_nodata (nodata src) x then NaN else x).
  set (a' := amap f (samples o)).
  assert (Hclean : forall i j x, item a' i j = Some x ->
                                 is_nodata (nodata src) x = false).
  { intros i j x. unfold a'. rewrite item_amap.
    destruct (item (samples o) i j) as [y|]; [|discriminate].
    simpl. unfold f. intros [= <-].
    destruct (is_nodata (nodata src) y) eqn:Hy; [apply is_nodata_nan|exact Hy]. }
  assert (Hnew : nth_error (replace_nth r (float_array a') (heap s)) r
                 = Some (float_array a'))
    by (now apply nth_error_replace_nth with (y := o)).
  eexists _, a'. split; [reflexivity|]. split; [exact Hnew|].
  split; [exact Hclean|].
  erewrite ignore_nodata_run; [|exact Hr|exact Hnew].
  simpl. fold f. rewrite (amap_same f a').
  - now rewrite replace_nth_same.
  - intros i j x Hx. unfold f. now rewrite (Hclean i j x Hx).
Qed.

(** On the raster whose first cell is the nodata value -9999. *)
Lemma nodata_substitution_settles_witness :
  exists s' a',
    ignore_nodata raster_with_nodata (just_read raster_with_nodata)
    = inr (tt, s') /\
    nth_error (heap s') 0 = Some (float_array a') /\
    (forall i j x, item a' i j = Some x ->
                   is_nodata (nodata raster_with_nodata) x = false) /\
    ignore_nodata raster_with_nodata s' = inr (tt, s').
Proof.
  apply (nodata_substitution_settles raster_with_nodata
           (just_read raster_with_nodata) 0%nat
           (float_array (band1 raster_with_nodata))); reflexivity.
Defined.

(** ** The order of the cells *)

Lemma load_unbound (s : state) (x : avar) :
  arrays s x = None -> load x s = inl NameError.
Proof. intros H. unfold load, lookup, bind. now rewrite H. Qed.

(** X3.  The percentile, local adaptive and k-means cells read
    [dfme_data], which only the standard deviation cell (or Step 5)
    binds: run in a notebook where it is not bound, each of them stops
    with a NameError, whatever its parameters. *)
Theorem later_cells_need_dfme_data (lloyd : nat -> Z -> list R -> list R)
    (s : state) :
  arrays s dfme_data = None ->
  (forall p, percentile_cell p s = inl NameError) /\
  (forall b off, local_cell b off s = inl NameError) /\
  (forall n seed, kmeans_cell lloyd n seed s = inl NameError).
Proof.
  intros Hs. pose proof (load_unbound s dfme_data Hs) as Hl.
  split; [|split]; intros.
  - unfold percentile_cell, percentile_threshold.
    apply bind_raise. now apply bind_raise.
  - unfold local_cell, local_threshold.
    apply bind_raise. now apply bind_raise.
  - unfold kmeans_cell, kmeans_threshold.
    apply bind_raise. now apply bind_raise.
Qed.

(** In a new notebook the percentile cell stops at once. *)
Lemma later_cells_need_dfme_data_witness :
  percentile_cell 5 empty = inl NameError.
Proof.
  apply (later_cells_need_dfme_data (fun _ _ X => X) empty). reflexivity.
Defined.

(** X4.  What the percentile, local adaptive and k-means cells compute
    depends on the notebook only through the array [dfme_data] refers
    to: from two states that hold the same array there, a cell either
    stops with the same exception in both or leaves the same threshold
    and the same mask in both, whatever earlier cells left in the
    other variables. *)
Theorem later_cells_read_dfme_data_only (lloyd : nat -> Z -> list R -> list R)
    (s1 s2 : state) (o : object) :
  array_of s1 dfme_data = Some o ->
  array_of s2 dfme_data = Some o ->
  (forall p,
     same_outcome scalar_outputs (percentile_cell p s1) (percentile_cell p s2)) /\
  (forall b off,
     same_outcome local_outputs (local_cell b off s1) (local_cell b off s2)) /\
  (forall n seed,
     same_outcome scalar_outputs
       (kmeans_cell lloyd n seed s1) (kmeans_cell lloyd n seed s2)).
Proof.
  intros H1 H2. split; [|split].
  - intros p.
    rewrite (percentile_cell_run p s1 o H1), (percentile_cell_run p s2 o H2).
    destruct (np.nanpercentile (ravel (samples o)) p) as [e|t]; simpl;
      [reflexivity|].
    split; [reflexivity|]. now rewrite !array_of_new.
  - intros b off.
    rewrite (local_cell_run b off s1 o H1), (local_cell_run b off s2 o H2).
    destruct (skimage.threshold_local (samples o) b off) as [e|t]; simpl;
      [reflexivity|].
    split; [|now rewrite !array_of_new].
    rewrite !(array_of_alloc _ _ (fun _ => None) _ adaptive_threshold
                thresholded_dfme (float_array t));
      try reflexivity; apply array_of_new.
  - intros n seed.
    rewrite (kmeans_cell_run lloyd n seed s1 o H1),
            (kmeans_cell_run lloyd n seed s2 o H2).
    destruct (sklearn.KMeans_fit lloyd n seed _) as [e|centers]; simpl;
      [reflexivity|].
    destruct (py_min centers) as [e|t]; simpl; [reflexivity|].
    split; [reflexivity|]. now rewrite !array_of_new.
Qed.

(** The percentile cell right after the load, and after a threshold
    and a mask were left by an earlier cell. *)
Lemma later_cells_read_dfme_data_only_witness :
  same_outcome scalar_outputs
    (percentile_cell 50 (loaded raster_one_to_five empty))
    (percentile_cell 50
       (loaded raster_one_to_five
          {| heap := [uint8_array [[1%Z]]];
             arrays := fun y => if avar_eqb thresholded_dfme y
                                then Some 0%nat else None;
             scalars := fun _ => Some (Fin 0) |})).
Proof.
  apply (later_cells_read_dfme_data_only (fun _ _ X => X) _ _
           (float_array (nodata_to_nan raster_one_to_five)));
    reflexivity.
Defined.

(** ** More on the percentile cell *)



(** ** Thresholds and the arrangement of the samples *)

Ltac compare_cases :=
  repeat match goal with
         | H : context [(?a ?= ?b)%Z] |- _ =>
             destruct (Z.compare_spec a b); try discriminate H
         | |- context [(?a ?= ?b)%Z] => destruct (Z.compare_spec a b)
         | H : context [Pos.compare_cont Eq ?a ?b] |- _ =>
             change (Pos.compare_cont Eq a b) with (a ?= b)%positive in H;
             destruct (Pos.compare_spec a b); try discriminate H
         | |- context [Pos.compare_cont Eq ?a ?b] =>
             change (Pos.compare_cont Eq a b) with (a ?= b)%positive;
             destruct (Pos.compare_spec a b)
         end.

Lemma le_trans (x y z : binary64.float64) :
  binary64.le x y = true -> binary64.le y z = true -> binary64.le x z = true.
Proof.
  unfold binary64.le, SpecFloat.SFleb, SpecFloat.SFcompare.
  destruct x as [sx|sx| |sx mx ex], y as [sy|sy| |sy my ey],
    z as [sz|sz| |sz mz ez];
    repeat match goal with s : bool |- _ => destruct s end;
    intros H1 H2; try discriminate; try reflexivity;
    simpl in *; compare_cases; subst; simpl; try reflexivity; try lia.
Qed.

Lemma le_antisym (x y : binary64.float64) :
  ordinary x -> ordinary y ->
  binary64.le x y = true -> binary64.le y x = true -> x = y.
Proof.
  unfold ordinary, binary64.le, SpecFloat.SFleb, SpecFloat.SFcompare.
  intros [_ Hx] [_ Hy].
  destruct x as [sx|sx| |sx mx ex], y as [sy|sy| |sy my ey];
    repeat match goal with s : bool |- _ => destruct s end;
    intros H1 H2; try discriminate; try reflexivity; try congruence;
    simpl in *; compare_cases; subst; simpl; try reflexivity; try lia.
Qed.

Lemma insert_comm (x y : binary64.float64) (l : list binary64.float64) :
  ordinary x -> ordinary y -> Forall ordinary l ->
  binary64.insert x (binary64.insert y l) = binary64.insert y (binary64.insert x l).
Proof.
  intros Hx Hy Hl.
  assert (Hxy : binary64.le x y = true -> binary64.le y x = true -> x = y)
    by (now apply le_antisym).
  assert (Htot : binary64.le x y = false -> binary64.le y x = true)
    by (apply le_total; [apply Hx|apply Hy]).
  induction Hl as [|z l Hz Hl IH]; simpl.
  - destruct (binary64.le x y) eqn:E1, (binary64.le y x) eqn:E2; auto.
    + now rewrite Hxy.
    + specialize (Htot eq_refl). discriminate.
  - destruct (binary64.le y z) eqn:Eyz, (binary64.le x z) eqn:Exz; simpl.
    + rewrite Eyz, Exz.
      destruct (binary64.le x y) eqn:E1, (binary64.le y x) eqn:E2; auto.
      * now rewrite Hxy.
      * specialize (Htot eq_refl). discriminate.
    + rewrite Exz, Eyz.
      destruct (binary64.le x y) eqn:E1; [|reflexivity].
      rewrite (le_trans x y z E1 Eyz) in Exz. discriminate.
    + rewrite Eyz, Exz.
      destruct (binary64.le y x) eqn:E2; [|reflexivity].
      rewrite (le_trans y x z E2 Exz) in Eyz. discriminate.
    + rewrite Exz, Eyz. now rewrite IH.
Qed.

Lemma sort_ordinary (l : list binary64.float64) :
  Forall ordinary l -> Forall ordinary (binary64.sort l).
Proof.
  intros H. eapply Permutation_Forall; [|exact H].
  symmetry. apply sort_permutation.
Qed.

Lemma sort_permutation_invariant (l l' : list binary64.float64) :
  Permutation l l' -> Forall ordinary l -> binary64.sort l = binary64.sort l'.
Proof.
  induction 1 as [|x l l' Hp IH|x y l|l l' l'' H1 IH1 H2 IH2]; intros Hl.
  - reflexivity.
  - simpl. fold (binary64.sort l) (binary64.sort l').
    inversion Hl; subst. now rewrite IH.
  - simpl. fold (binary64.sort l).
    inversion Hl as [|? ? Hy Hl']; subst. inversion Hl' as [|? ? Hx Hl'']; subst.
    apply insert_comm; auto using sort_ordinary.
  - rewrite IH1 by assumption. apply IH2.
    eapply Permutation_Forall; eassumption.
Qed.

Lemma remove_nan_permutation (l l' : list binary64.float64) :
  Permutation l l' ->
  Permutation (binary64.remove_nan l) (binary64.remove_nan l').
Proof.
  unfold binary64.remove_nan.
  induction 1 as [|x l l' Hp IH|x y l|l l' l'' H1 IH1 H2 IH2]; simpl.
  - constructor.
  - destruct (negb (binary64.isnan x)); [now constructor|assumption].
  - destruct (negb (binary64.isnan x)), (negb (binary64.isnan y));
      try reflexivity. apply perm_swap.
  - etransitivity; eassumption.
Qed.

(** X7.  In binary64 the percentile threshold does not depend on how
    the samples are arranged in the raster, whatever the cutoff: two
    rasters with the same samples in another order (none of them the
    negative zero) are refused alike or get the same threshold. *)
Theorem percentile_ignores_arrangement (d1 d2 : ndarray binary64.float64)
    (p : binary64.float64) :
  Permutation (ravel d1) (ravel d2) ->
  (forall x, In x (ravel d1) -> x <> SpecFloat.S754_zero true) ->
  binary64.percentile_threshold p d1 = binary64.percentile_threshold p d2.
Proof.
  intros Hp Hz.
  pose proof (remove_nan_permutation _ _ Hp) as Hr.
  assert (Ho : Forall ordinary (binary64.remove_nan (ravel d1))).
  { apply Forall_forall. intros x Hx. apply filter_In in Hx as [Hin Hx].
    split; [now destruct (binary64.isnan x)|now apply Hz]. }
  unfold binary64.percentile_threshold, binary64.nanpercentile.
  destruct (_ && _); [|reflexivity].
  destruct (binary64.remove_nan (ravel d1)) as [|x1 l1] eqn:E1,
           (binary64.remove_nan (ravel d2)) as [|x2 l2] eqn:E2.
  - reflexivity.
  - apply Permutation_nil in Hr. discriminate.
  - apply Permutation_sym, Permutation_nil in Hr. discriminate.
  - unfold binary64.quantile.
    rewrite (Permutation_length Hr), (sort_permutation_invariant _ _ Hr Ho).
    reflexivity.
Qed.

(** The samples 0.1, 0.2, 0.3 and the same samples as 0.2, 0.3, 0.1,
    with the cutoff 5 of the cell. *)
Lemma percentile_ignores_arrangement_witness :
  binary64.percentile_threshold (binary64.of_Z 5) raster_123
  = binary64.percentile_threshold (binary64.of_Z 5) raster_231.
Proof.
  apply (percentile_ignores_arrangement raster_123 raster_231 (binary64.of_Z 5)).
  - apply (Permutation_cons_append [_; _]).
  - intros x [<-|[<-|[<-|[]]]]; vm_compute; discriminate.
Defined.

(** The standard deviation threshold does depend on the arrangement:
    the sums are rounded in the order of the samples.  With the factor
    1.5, the samples 0.1, 0.2, 0.3 give 0.07752551286084114 and the same
    samples as 0.2, 0.3, 0.1 give 0.07752551286084108. *)
Example standard_deviation_depends_on_arrangement :
  Permutation (ravel raster_123) (ravel raster_231) /\
  binary64.standard_deviation_threshold binary64.add_in_sequence three_halves
    raster_123 = SpecFloat.S754_finite false 5586301933308652 (-56) /\
  binary64.standard_deviation_threshold binary64.add_in_sequence three_halves
    raster_231 = SpecFloat.S754_finite false 5586301933308648 (-56).
Proof.
  split; [apply (Permutation_cons_append [_; _])|].
  split; vm_compute; reflexivity.
Qed.

(** ** The mask of the median *)

Lemma ones_apply_threshold (d : ndarray binary64.float64) (t : binary64.float64) :
  ones (binary64.apply_threshold d t) = count_below t (ravel d).
Proof.
  unfold ones, binary64.apply_threshold, count_below.
  rewrite ravel_amap.
  induction (ravel d) as [|x l IH]; simpl; [reflexivity|].
  destruct (binary64.lt x t); simpl; now rewrite IH.
Qed.

Lemma count_below_remove_nan (t : binary64.float64) (l : list binary64.float64) :
  count_below t (binary64.remove_nan l) = count_below t l.
Proof.
  unfold count_below, binary64.remove_nan.
  induction l as [|x l IH]; simpl; [reflexivity|].
  destruct x as [sx|sx| |sx mx ex]; simpl; try (destruct (binary64.lt _ t); simpl; now rewrite IH).
  exact IH.
Qed.

Lemma count_below_permutation (t : binary64.float64) (l l' : list binary64.float64) :
  Permutation l l' -> count_below t l = count_below t l'.
Proof.
  unfold count_below.
  induction 1 as [|x l l' Hp IH|x y l|l l' l'' H1 IH1 H2 IH2]; simpl.
  - reflexivity.
  - destruct (binary64.lt x t); simpl; now rewrite IH.
  - destruct (binary64.lt x t), (binary64.lt y t); reflexivity.
  - congruence.
Qed.

(** Numbers that compare equal are below the same numbers. *)
Lemma lt_eq_r (x t a : binary64.float64) :
  binary64.eq t a = true -> binary64.lt x t = binary64.lt x a.
Proof.
  unfold binary64.eq, binary64.lt, SpecFloat.SFeqb, SpecFloat.SFltb,
    SpecFloat.SFcompare.
  destruct t as [st|st| |st mt et], a as [sa|sa| |sa ma ea];
    repeat match goal with s : bool |- _ => destruct s end;
    try discriminate; try reflexivity;
    intros H; simpl in H; compare_cases; subst; reflexivity.
Qed.

Lemma le_not_lt (a x : binary64.float64) :
  binary64.le a x = true -> binary64.lt x a = false.
Proof.
  unfold binary64.le, binary64.lt, SpecFloat.SFleb, SpecFloat.SFltb.
  rewrite (compare_antisym a x).
  now destruct (SpecFloat.SFcompare a x) as [[| |]|].
Qed.

Lemma lt_irrefl (a : binary64.float64) : binary64.lt a a = false.
Proof.
  unfold binary64.lt, SpecFloat.SFltb.
  pose proof (compare_antisym a a) as H.
  destruct (SpecFloat.SFcompare a a) as [[| |]|]; try reflexivity; discriminate.
Qed.

Lemma count_below_none (a : binary64.float64) (s : list binary64.float64) :
  Forall (fun x => binary64.le a x = true) s -> count_below a s = 0%nat.
Proof.
  unfold count_below. induction 1 as [|x s Hx Hs IH]; simpl; [reflexivity|].
  now rewrite (le_not_lt a x Hx).
Qed.

(** In an ascending list, at most [m] samples are below the one at
    position [m]. *)
Lemma count_below_ascending (s : list binary64.float64) (m : nat)
    (a : binary64.float64) :
  ascending s -> nth_error s m = Some a -> (count_below a s <= m)%nat.
Proof.
  unfold ascending. intros Hs.
  apply Sorted_StronglySorted in Hs;
    [|intros x y z; apply le_trans].
  revert m. induction Hs as [|y s Hs IH Hy]; intros m Hm.
  - destruct m; discriminate.
  - destruct m as [|m]; simpl in Hm.
    + injection Hm as ->.
      change (count_below a (a :: s))
        with (length (if binary64.lt a a then a :: filter (fun x => binary64.lt x a) s
                      else filter (fun x => binary64.lt x a) s)).
      rewrite lt_irrefl. apply Nat.eq_le_incl. now apply count_below_none.
    + specialize (IH m Hm). unfold count_below in *. simpl.
      destruct (binary64.lt y a); simpl; lia.
Qed.

Lemma count_below_eq (t a : binary64.float64) (l : list binary64.float64) :
  binary64.eq t a = true -> count_below t l = count_below a l.
Proof.
  intros H. unfold count_below. f_equal. apply filter_ext.
  intros x. now apply lt_eq_r.
Qed.

(** X8.  With the cutoff 50 on a raster with an odd number
    [n = 2 m + 1] of valid samples, the percentile cell flags at most
    [m] cells, fewer than half of the valid ones: its threshold is
    their median, and neither a sample at or above the median nor a
    nodata cell is strictly below it.  (The median and its difference
    to the next sample are finite, and [n] is below 2^53.) *)
Theorem median_flags_less_than_half (dfme_data : ndarray binary64.float64)
    (m : nat) (a : binary64.float64) :
  let arr := binary64.remove_nan (ravel dfme_data) in
  let s := binary64.sort arr in
  length arr = (2 * m + 1)%nat -> (Z.of_nat (length arr) < 2 ^ 53)%Z ->
  nth_error s m = Some a -> binary64.finite a = true ->
  (forall b, nth_error s (S m) = Some b ->
             binary64.finite (binary64.sub b a) = true) ->
  exists t,
    binary64.percentile_threshold (binary64.of_Z 50) dfme_data = inr t /\
    binary64.eq t a = true /\
    (ones (binary64.apply_threshold dfme_data t) <= m)%nat.
Proof.
  intros arr s Hn Hbound Ha Hfa Hgap.
  assert (Hne : arr <> []) by (intros E; rewrite E in Hn; simpl in Hn; lia).
  destruct (percentile_median_odd dfme_data m a Hne Hn Hbound Ha Hfa Hgap)
    as (t & Ht & Heq).
  exists t. split; [exact Ht|]. split; [exact Heq|].
  rewrite ones_apply_threshold, <- count_below_remove_nan.
  fold arr.
  rewrite (count_below_permutation t arr s)
    by (symmetry; apply sort_permutation).
  rewrite (count_below_eq t a s Heq).
  apply count_below_ascending; [|exact Ha].
  apply sort_ascending, remove_nan_not_nan.
Qed.

(** The samples 3, 1, 5, 2, 4 and a NaN: at most two cells are
    flagged. *)
Lemma median_flags_less_than_half_witness :
  exists t,
    binary64.percentile_threshold (binary64.of_Z 50) raster_one_to_five_binary64
    = inr t /\
    binary64.eq t (binary64.of_Z 3) = true /\
    (ones (binary64.apply_threshold raster_one_to_five_binary64 t) <= 2)%nat.
Proof.
  apply (median_flags_less_than_half raster_one_to_five_binary64 2
           (binary64.of_Z 3)).
  - reflexivity.
  - reflexivity.
  - vm_compute. reflexivity.
  - reflexivity.
  - intros b Hb. vm_compute in Hb. injection Hb as <-. vm_compute. reflexivity.
Defined.

(** ** More on the comparison with the threshold *)

(** X10.  Lowering the threshold never adds a cell to the mask: for
    the same [dfme_data] and two thresholds [t1 <= t2], every cell of
    the mask of [t1] is at most the cell of the mask of [t2]. *)
Theorem mask_grows_with_threshold (s1 s2 : state) (o : object) (t1 t2 : R) :
  array_of s1 dfme_data = Some o ->
  array_of s2 dfme_data = Some o ->
  scalars s1 dynamic_threshold = Some (Fin t1) ->
  scalars s2 dynamic_threshold = Some (Fin t2) ->
  t1 <= t2 ->
  exists s1' s2' m1 m2,
    apply_threshold s1 = inr (tt, s1') /\
    apply_threshold s2 = inr (tt, s2') /\
    array_of s1' thresholded_dfme = Some (uint8_array m1) /\
    array_of s2' thresholded_dfme = Some (uint8_array m2) /\
    forall i j z1, item m1 i j = Some z1 ->
      exists z2, item m2 i j = Some z2 /\ (z1 <= z2)%Z.
Proof.
  intros Ha1 Ha2 Ht1 Ht2 Hle.
  rewrite (apply_threshold_run s1 o _ Ha1 Ht1),
          (apply_threshold_run s2 o _ Ha2 Ht2).
  eexists _, _, _, _. split; [reflexivity|]. split; [reflexivity|].
  split; [apply array_of_new|]. split; [apply array_of_new|].
  intros i j z1. rewrite !item_mask_scalar.
  destruct (item (samples o) i j) as [[|x]|]; simpl; try discriminate.
  - intros [= <-]. eexists. split; [reflexivity|lia].
  - intros [= <-]. eexists. split; [reflexivity|].
    destruct (Rlt_dec x t1), (Rlt_dec x t2); try lia. lra.
Qed.

(** The thresholds 2 and 3 on the raster of 3, 1, 5, 2, 4 and a NaN. *)
Lemma mask_grows_with_threshold_witness :
  exists s1' s2' m1 m2,
    apply_threshold (loaded_with_threshold raster_one_to_five (Fin 2))
    = inr (tt, s1') /\
    apply_threshold (loaded_with_threshold raster_one_to_five (Fin 3))
    = inr (tt, s2') /\
    array_of s1' thresholded_dfme = Some (uint8_array m1) /\
    array_of s2' thresholded_dfme = Some (uint8_array m2) /\
    forall i j z1, item m1 i j = Some z1 ->
      exists z2, item m2 i j = Some z2 /\ (z1 <= z2)%Z.
Proof.
  apply (mask_grows_with_threshold
           (loaded_with_threshold raster_one_to_five (Fin 2))
           (loaded_with_threshold raster_one_to_five (Fin 3))
           (float_array (nodata_to_nan raster_one_to_five)) 2 3);
    try reflexivity.
  lra.
Defined.

(** ** More on the local adaptive cell *)

Lemma length_zip_with {A B C} (f : A -> B -> C) (l : list A) (m : list B) :
  length (zip_with f l m) = Nat.min (length l) (length m).
Proof.
  revert m; induction l as [|x l IH]; intros [|y m]; simpl; auto.
Qed.

Lemma in_zip_with {A B C} (f : A -> B -> C) (l : list A) (m : list B) (z : C) :
  In z (zip_with f l m) -> exists x y, In x l /\ In y m /\ z = f x y.
Proof.
  revert m; induction l as [|x l IH]; intros [|y m]; simpl; try contradiction.
  intros [<-|Hin].
  - exists x, y. auto.
  - destruct (IH m Hin) as (x' & y' & Hx & Hy & ->). exists x', y'. auto.
Qed.

Lemma shape_less (a t : ndarray float) :
  shape t = shape a -> shape (np.less a t) = shape a.
Proof.
  unfold shape, np.less. intros [= Hh Hw].
  rewrite length_zip_with, Hh, Nat.min_id.
  destruct a as [|ra a], t as [|rt t]; simpl in *; try discriminate;
    [reflexivity|].
  now rewrite length_zip_with, Hw, Nat.min_id.
Qed.

Lemma rectangular_amap {A B} (f : A -> B) (a : ndarray A) :
  rectangular a -> rectangular (amap f a).
Proof.
  intros Hr row Hin. rewrite shape_amap. unfold amap in Hin.
  apply in_map_iff in Hin. destruct Hin as (row' & <- & Hin).
  rewrite length_map. now apply Hr.
Qed.

Lemma rectangular_tabulate {A} (h w : nat) (f : nat -> nat -> A) :
  rectangular (tabulate h w f).
Proof.
  intros row Hin. rewrite shape_tabulate. unfold tabulate in Hin.
  apply in_map_iff in Hin. destruct Hin as (i & <- & Hi).
  rewrite length_map, length_seq.
  destruct h; [destruct Hi|reflexivity].
Qed.

Lemma rectangular_less (a t : ndarray float) :
  shape t = shape a -> rectangular a -> rectangular t ->
  rectangular (np.less a t).
Proof.
  intros Hs Ha Ht row Hin. rewrite (shape_less a t Hs).
  apply in_zip_with in Hin. destruct Hin as (ra & rt & Hra & Hrt & ->).
  rewrite length_zip_with, (Ha ra Hra), (Ht rt Hrt), Hs. apply Nat.min_id.
Qed.

Lemma rectangular_correlate1d (weights : list R) (radius axis : nat)
    (a : ndarray float) :
  rectangular (ndimage.correlate1d weights radius axis a).
Proof.
  unfold ndimage.correlate1d. destruct (shape a). apply rectangular_tabulate.
Qed.

Lemma rectangular_threshold_local (a t : ndarray float) (b : Z) (off : R) :
  rectangular a -> skimage.threshold_local a b off = inr t -> rectangular t.
Proof.
  intros Hr Ht.
  destruct (proj1 (threshold_local_accepts a b off) (ex_intro _ t Ht)) as [Ho Hb].
  rewrite (threshold_local_positive a b off Ho Hb) in Ht.
  injection Ht as <-. unfold np.subtract_scalar. apply rectangular_amap.
  unfold ndimage.gaussian_filter, ndimage.gaussian_filter1d.
  destruct (Rlt_dec _ _); [apply rectangular_correlate1d|exact Hr].
Qed.

(** X11.  For every positive odd block size the local adaptive cell
    leaves a threshold array and a mask that both have the shape of
    the raster: on a raster all of whose rows have the same length, so
    have the rows of the threshold and of the mask, in the same number
    and of the same length. *)
Theorem local_cell_keeps_shape (src : dataset) (b : Z) (off : R) (s : state) :
  rectangular (band1 src) ->
  Z.odd b = true -> (0 < b)%Z ->
  exists s' t m,
    on_raster src (local_cell b off) s = inr (tt, s') /\
    array_of s' adaptive_threshold = Some (float_array t) /\
    array_of s' thresholded_dfme = Some (uint8_array m) /\
    shape t = shape (band1 src) /\ rectangular t /\
    shape m = shape (band1 src) /\ rectangular m.
Proof.
  intros Hrect Ho Hb.
  rewrite on_raster_run, (local_cell_run b off _ _ (array_of_loaded src s)).
  simpl samples.
  destruct (skimage.threshold_local (nodata_to_nan src) b off) as [e|t] eqn:Ht.
  - rewrite (threshold_local_positive _ b off Ho Hb) in Ht. discriminate.
  - assert (Hra : rectangular (nodata_to_nan src))
      by (now apply rectangular_amap).
    assert (Hsa : shape (nodata_to_nan src) = shape (band1 src))
      by apply shape_amap.
    pose proof (threshold_local_shape _ _ _ _ Ht) as Hst.
    pose proof (rectangular_threshold_local _ _ _ _ Hra Ht) as Hrt.
    eexists _, t, _. split; [reflexivity|]. split; [|split; [apply array_of_new|]].
    + eapply (array_of_alloc _ _ (fun _ => None));
        [apply array_of_new|reflexivity].
    + split; [congruence|]. split; [exact Hrt|].
      unfold np.astype_uint8. rewrite shape_amap, shape_less by exact Hst.
      split; [exact Hsa|].
      apply rectangular_amap. now apply rectangular_less.
Qed.

(** The notebook's block size 101 on a 2 by 3 raster. *)
Lemma local_cell_keeps_shape_witness :
  exists s' t m,
    on_raster raster_one_to_five (local_cell 101 0) empty = inr (tt, s') /\
    array_of s' adaptive_threshold = Some (float_array t) /\
    array_of s' thresholded_dfme = Some (uint8_array m) /\
    shape t = shape (band1 raster_one_to_five) /\ rectangular t /\
    shape m = shape (band1 raster_one_to_five) /\ rectangular m.
Proof.
  apply (local_cell_keeps_shape raster_one_to_five 101 0 empty).
  - intros row [<-|[<-|[]]]; reflexivity.
  - reflexivity.
  - lia.
Defined.

(** *** Nodata under the Gaussian window *)

Lemma reflect_inside (n i : nat) :
  (i < n)%nat -> ndimage.reflect n (Z.of_nat i) = i.
Proof.
  intros Hi. unfold ndimage.reflect.
  rewrite Z.mod_small by lia.
  destruct (Z.ltb_spec (Z.of_nat i) (Z.of_nat n)); lia.
Qed.

Lemma reflect_lt (n : nat) (z : Z) :
  (0 < n)%nat -> (ndimage.reflect n z < n)%nat.
Proof.
  intros Hn. unfold ndimage.reflect.
  pose proof (Z.mod_pos_bound z (2 * Z.of_nat n) ltac:(lia)) as Hm.
  destruct (Z.ltb_spec (z mod (2 * Z.of_nat n)) (Z.of_nat n)); lia.
Qed.

Lemma fsum_nan (l : list float) : In NaN l -> fsum l = NaN.
Proof.
  induction l as [|x l IH]; [contradiction|].
  change (fsum (x :: l)) with (fadd x (fsum l)).
  intros [->|Hin]; [reflexivity|].
  rewrite (IH Hin). now destruct x.
Qed.

Lemma getf_item (a : ndarray float) (i j : nat) (x : float) :
  item a i j = Some x -> ndimage.getf a i j = x.
Proof. unfold ndimage.getf. now intros ->. Qed.

(** One pass of the filter: a NaN within [radius] of a cell along the
    axis of the pass makes the output NaN at that cell. *)
Lemma correlate1d_nan (weights : list R) (radius axis : nat)
    (input : ndarray float) (i j i' j' : nat) :
  (i < fst (shape input))%nat -> (j < snd (shape input))%nat ->
  (i' < fst (shape input))%nat -> (j' < snd (shape input))%nat ->
  (if (axis =? 0)%nat then j' = j /\ (i <= i' + radius)%nat /\ (i' <= i + radius)%nat
   else i' = i /\ (j <= j' + radius)%nat /\ (j' <= j + radius)%nat) ->
  ndimage.getf input i' j' = NaN ->
  item (ndimage.correlate1d weights radius axis input) i j = Some NaN.
Proof.
  intros Hi Hj Hi' Hj' Hnear Hnan. unfold ndimage.correlate1d.
  destruct (shape input) as [h w]. simpl in Hi, Hj, Hi', Hj'.
  rewrite nth_error_tabulate by assumption. f_equal.
  apply fsum_nan. apply in_map_iff.
  destruct (axis =? 0)%nat.
  - destruct Hnear as (-> & H1 & H2).
    exists (i' + radius - i)%nat. split; [|apply in_seq; lia].
    replace (Z.of_nat i + (Z.of_nat (i' + radius - i) - Z.of_nat radius))%Z
      with (Z.of_nat i') by lia.
    now rewrite reflect_inside, Hnan.
  - destruct Hnear as (-> & H1 & H2).
    exists (j' + radius - j)%nat. split; [|apply in_seq; lia].
    replace (Z.of_nat j + (Z.of_nat (j' + radius - j) - Z.of_nat radius))%Z
      with (Z.of_nat j') by lia.
    now rewrite reflect_inside, Hnan.
Qed.

Lemma small_sigma_bound : / 10 ^ 15 < 1 / 3.
Proof.
  assert (H : 3 < 10 ^ 15) by (simpl; lra).
  replace (1 / 3) with (/ 3) by lra.
  apply Rinv_lt_contravar; [|exact H].
  apply Rmult_lt_0_compat; lra.
Qed.

(** The two passes: a NaN within [radius] rows and [radius] columns of
    a cell makes the filtered value NaN at that cell. *)
Lemma gaussian_filter_nan (b : Z) (input : ndarray float) (i j i' j' : nat) :
  (3 <= b)%Z ->
  (i < fst (shape input))%nat -> (j < snd (shape input))%nat ->
  (i' < fst (shape input))%nat -> (j' < snd (shape input))%nat ->
  (i <= i' + window_radius b)%nat -> (i' <= i + window_radius b)%nat ->
  (j <= j' + window_radius b)%nat -> (j' <= j + window_radius b)%nat ->
  ndimage.getf input i' j' = NaN ->
  item (ndimage.gaussian_filter ((IZR b - 1) / 6) 4 input) i j = Some NaN.
Proof.
  intros Hb Hi Hj Hi' Hj' H1 H2 H3 H4 Hnan.
  unfold ndimage.gaussian_filter.
  apply IZR_le in Hb. pose proof small_sigma_bound.
  destruct (Rlt_dec (/ 10 ^ 15) ((IZR b - 1) / 6)) as [_|Hn]; [|exfalso; lra].
  unfold ndimage.gaussian_filter1d. fold (window_radius b).
  set (ws := rev (ndimage.gaussian_kernel1d ((IZR b - 1) / 6) (window_radius b))).
  set (out0 := ndimage.correlate1d ws (window_radius b) 0 input).
  assert (Hs0 : shape out0 = shape input) by apply shape_correlate1d.
  assert (H0 : item out0 i j' = Some NaN).
  { apply (correlate1d_nan ws (window_radius b) 0 input i j' i' j');
      simpl; auto. }
  apply (correlate1d_nan ws (window_radius b) 1 out0 i j i j');
    rewrite ?Hs0; simpl; auto.
  now apply getf_item.
Qed.

(** The window of the notebook's block size 101 reaches 67 cells to
    each side, further than the 50 of the block itself. *)
Lemma window_radius_101 : window_radius 101 = 67%nat.
Proof.
  unfold window_radius.
  replace (Int_part (4 * ((101 - 1) / 6) + 1 / 2)) with 67%Z; [reflexivity|].
  apply Int_part_spec. lra.
Qed.

(** The window always covers the block. *)
Lemma window_covers_block (b : Z) :
  (1 <= b)%Z -> (Z.to_nat ((b - 1) / 2) <= window_radius b)%nat.
Proof.
  intros Hb. unfold window_radius.
  set (r := 4 * ((IZR b - 1) / 6) + 1 / 2).
  assert (Hhalf : IZR ((b - 1) / 2) <= r).
  { assert (H2 : (2 * ((b - 1) / 2) <= b - 1)%Z)
      by (apply Z.mul_div_le; lia).
    apply IZR_le in H2. rewrite mult_IZR, minus_IZR in H2.
    pose proof (IZR_le _ _ Hb). unfold r. lra. }
  destruct (base_Int_part r) as [_ Hgt].
  assert (((b - 1) / 2 < Int_part r + 1)%Z).
  { apply lt_IZR. rewrite plus_IZR. lra. }
  assert (0 <= (b - 1) / 2)%Z by (apply Z.div_pos; lia).
  lia.
Qed.

(** X12.  Nodata spreads under the local threshold: for an odd block
    size of at least 3, the threshold is NaN, and the mask 0, at every
    cell of the raster that lies within [window_radius block_size]
    rows and columns of a nodata (or NaN) cell, valid cells
    included.  That window is at least as wide as the block. *)
Theorem nodata_spreads_over_window (src : dataset) (b : Z) (off : R) (s : state)
    (i j i' j' : nat) (x y : float) :
  rectangular (band1 src) ->
  Z.odd b = true -> (3 <= b)%Z ->
  item (band1 src) i' j' = Some x -> is_valid (nodata src) x = false ->
  item (band1 src) i j = Some y ->
  (i <= i' + window_radius b)%nat -> (i' <= i + window_radius b)%nat ->
  (j <= j' + window_radius b)%nat -> (j' <= j + window_radius b)%nat ->
  (Z.to_nat ((b - 1) / 2) <= window_radius b)%nat /\
  exists s' t m,
    on_raster src (local_cell b off) s = inr (tt, s') /\
    array_of s' adaptive_threshold = Some (float_array t) /\
    array_of s' thresholded_dfme = Some (uint8_array m) /\
    item t i j = Some NaN /\
    item m i j = Some 0%Z.
Proof.
  intros Hrect Ho Hb Hx Hinv Hy H1 H2 H3 H4.
  split; [apply window_covers_block; lia|].
  rewrite on_raster_run, (local_cell_run b off _ _ (array_of_loaded src s)).
  simpl samples.
  rewrite (threshold_local_positive _ b off Ho ltac:(lia)).
  set (a := nodata_to_nan src).
  assert (Hsa : shape a = shape (band1 src)) by apply shape_amap.
  destruct (item_bounds _ _ _ _ Hrect Hx) as [Bi' Bj'].
  destruct (item_bounds _ _ _ _ Hrect Hy) as [Bi Bj].
  assert (Hnan : ndimage.getf a i' j' = NaN).
  { apply getf_item. unfold a. rewrite item_nodata_to_nan, Hx. simpl.
    unfold is_valid in Hinv.
    destruct (is_nodata (nodata src) x); [reflexivity|].
    destruct x; [reflexivity|discriminate]. }
  assert (Ht : item (np.subtract_scalar
                       (ndimage.gaussian_filter ((IZR b - 1) / 6) 4 a) (Fin off))
                 i j = Some NaN).
  { unfold np.subtract_scalar. rewrite item_amap.
    rewrite (gaussian_filter_nan b a i j i' j'); rewrite ?Hsa; auto. }
  eexists _, _, _. split; [reflexivity|]. split; [|split; [apply array_of_new|]].
  - eapply (array_of_alloc _ _ (fun _ => None));
      [apply array_of_new|reflexivity].
  - split; [exact Ht|].
    rewrite item_mask_local, Ht. unfold a.
    rewrite item_nodata_to_nan, Hy. simpl.
    now rewrite flt_nan_r.
Qed.

(** The NaN at row 0, column 1 of the 2 by 3 raster reaches the cell at
    row 1, column 2 under the notebook's block size 101. *)
Lemma nodata_spreads_over_window_witness :
  exists s' t m,
    on_raster raster_one_to_five (local_cell 101 0) empty = inr (tt, s') /\
    array_of s' adaptive_threshold = Some (float_array t) /\
    array_of s' thresholded_dfme = Some (uint8_array m) /\
    item t 1 2 = Some NaN /\
    item m 1 2 = Some 0%Z.
Proof.
  apply (nodata_spreads_over_window raster_one_to_five 101 0 empty
           1 2 0 1 NaN (Fin 4)).
  - intros row [<-|[<-|[]]]; reflexivity.
  - reflexivity.
  - lia.
  - reflexivity.
  - reflexivity.
  - reflexivity.
  - rewrite window_radius_101. lia.
  - lia.
  - rewrite window_radius_101. lia.
  - lia.
Defined.

(** ** More on the multiplication by the road mask *)

(** X14.  On two masks of the same shape whose samples are all 0 or 1,
    the multiplication of Step 5 is the logical "and": a cell of
    [final_result] is 1 where both masks are 1 and 0 where either is
    0, so it keeps the candidate cells on the road buffer and nothing
    else. *)
Theorem fusion_of_binary_masks (dfme road : dataset) (s : state) :
  shape (band1 dfme) = shape (band1 road) ->
  rectangular (band1 dfme) ->
  (forall i j x, item (band1 dfme) i j = Some x -> x = Fin 0 \/ x = Fin 1) ->
  (forall i j y, item (band1 road) i j = Some y -> y = Fin 0 \/ y = Fin 1) ->
  exists s' p,
    multiply_cell dfme road s = inr (tt, s') /\
    array_of s' final_result = Some (float_array p) /\
    forall i j x y,
      item (band1 dfme) i j = Some x -> item (band1 road) i j = Some y ->
      (x = Fin 1 /\ y = Fin 1 -> item p i j = Some (Fin 1)) /\
      (x = Fin 0 \/ y = Fin 0 -> item p i j = Some (Fin 0)).
Proof.
  intros Hshape Hrect Hbd Hbr.
  destruct (multiply_same_shape _ _ Hshape Hrect) as (p & Hp & Hitem).
  rewrite multiply_cell_run, Hp.
  eexists _, p. split; [reflexivity|]. split.
  - unfold array_of. simpl. apply nth_error_snoc.
  - intros i j x y Hx Hy. rewrite (Hitem i j x y Hx Hy).
    split.
    + intros [-> ->]. simpl. do 2 f_equal. ring.
    + destruct (Hbd i j x Hx) as [->| ->], (Hbr i j y Hy) as [->| ->];
        intros [H|H]; simpl; try (do 2 f_equal; ring);
        injection H as H; exfalso; lra.
Qed.

(** The two 2 by 2 masks of the fusion example. *)
Lemma fusion_of_binary_masks_witness :
  exists s' p,
    multiply_cell candidate_2x2 road_2x2 empty = inr (tt, s') /\
    array_of s' final_result = Some (float_array p) /\
    forall i j x y,
      item (band1 candidate_2x2) i j = Some x ->
      item (band1 road_2x2) i j = Some y ->
      (x = Fin 1 /\ y = Fin 1 -> item p i j = Some (Fin 1)) /\
      (x = Fin 0 \/ y = Fin 0 -> item p i j = Some (Fin 0)).
Proof.
  apply (fusion_of_binary_masks candidate_2x2 road_2x2 empty).
  - reflexivity.
  - intros row [<-|[<-|[]]]; reflexivity.
  - intros i j x Hx. apply item_in_ravel in Hx. simpl in Hx.
    destruct Hx as [<-|[<-|[<-|[<-|[]]]]]; auto.
  - intros i j x Hx. apply item_in_ravel in Hx. simpl in Hx.
    destruct Hx as [<-|[<-|[<-|[<-|[]]]]]; auto.
Defined.

(** ** More on the k-means cell *)

Lemma fold_min (l : list R) (m : R) :
  let t := fold_left (fun m y => if Rlt_dec y m then y else m) l m in
  (t = m \/ In t l) /\ t <= m /\ forall y, In y l -> t <= y.
Proof.
  revert m. induction l as [|x l IH]; intros m; simpl.
  - split; [now left|]. split; [lra|]. intros y [].
  - destruct (IH (if Rlt_dec x m then x else m)) as (Hin & Hle & Hall).
    destruct (Rlt_dec x m) as [Hlt|Hge].
    + split; [destruct Hin as [->|]; auto|]. split; [lra|].
      intros y [<-|Hy]; [exact Hle|now apply Hall].
    + split; [destruct Hin as [->|]; auto|]. split; [exact Hle|].
      intros y [<-|Hy]; [lra|now apply Hall].
Qed.

Lemma py_min_smallest (l : list R) :
  l <> [] ->
  exists t, py_min l = inr t /\ In t l /\ forall y, In y l -> t <= y.
Proof.
  destruct l as [|x l]; [congruence|]. intros _.
  destruct (fold_min l x) as (Hin & Hle & Hall).
  eexists. split; [reflexivity|]. split.
  - destruct Hin as [->|Hin]; [now left|now right].
  - intros y [<-|Hy]; [exact Hle|now apply Hall].
Qed.

(** X15.  When there are at least [n_clusters] valid samples (and
    [fit] returns its centers), the k-means cell leaves in
    [valid_pixels] exactly the valid samples of the raster, one per
    row and in row-major order, hands these to [fit], and leaves in
    [dynamic_threshold] the smallest of the centers: a center that is
    less than or equal to every other. *)
Theorem kmeans_threshold_is_smallest_center
    (lloyd : nat -> Z -> list R -> list R)
    (src : dataset) (n : nat) (seed : Z) (s : state) :
  (0 < n)%nat ->
  (n <= length (valid_sample_view src))%nat ->
  lloyd n seed (valid_sample_view src) <> [] ->
  exists s' t,
    on_raster src (kmeans_cell lloyd n seed) s = inr (tt, s') /\
    array_of s' valid_pixels
    = Some (float_array (map (fun x => [Fin x]) (valid_sample_view src))) /\
    scalars s' dynamic_threshold = Some (Fin t) /\
    In t (lloyd n seed (valid_sample_view src)) /\
    forall c, In c (lloyd n seed (valid_sample_view src)) -> t <= c.
Proof.
  intros Hn Hlen Hcenters.
  rewrite on_raster_run, (kmeans_cell_run lloyd n seed _ _ (array_of_loaded src s)).
  simpl samples. rewrite remove_nan_nodata_to_nan.
  unfold sklearn.KMeans_fit.
  destruct (Nat.eqb_spec n 0) as [|_]; [lia|].
  destruct (Nat.eqb_spec (length (valid_sample_view src)) 0) as [|_]; [lia|].
  destruct (Nat.ltb_spec (length (valid_sample_view src)) n) as [|_]; [lia|].
  destruct (py_min_smallest _ Hcenters) as (t & -> & Hin & Hall).
  eexists _, t. split; [reflexivity|]. split; [|split; [reflexivity|auto]].
  eapply (array_of_alloc _ _ (fun _ => None));
    [apply array_of_new|reflexivity].
Qed.

(** Three clusters on the raster of 3, 1, 5, 2, 4 and a NaN, with the
    samples themselves standing for the centers. *)
Lemma kmeans_threshold_is_smallest_center_witness :
  exists s' t,
    on_raster raster_one_to_five (kmeans_cell (fun _ _ X => X) 3 42) empty
    = inr (tt, s') /\
    array_of s' valid_pixels
    = Some (float_array [[Fin 3]; [Fin 1]; [Fin 5]; [Fin 2]; [Fin 4]]) /\
    scalars s' dynamic_threshold = Some (Fin t) /\
    In t [3; 1; 5; 2; 4] /\
    forall c, In c [3; 1; 5; 2; 4] -> t <= c.
Proof.
  apply (kmeans_threshold_is_smallest_center (fun _ _ X => X)
           raster_one_to_five 3 42 empty).
  - lia.
  - simpl. lia.
  - simpl. discriminate.
Defined.

(** X16.  The k-means cell stops with a ValueError before any
    clustering when [n_clusters] is 0, and when the raster has some
    valid samples but fewer than [n_clusters]. *)
Theorem kmeans_needs_enough_samples (lloyd : nat -> Z -> list R -> list R)
    (src : dataset) (n : nat) (seed : Z) (s : state) :
  (n = 0%nat ->
   on_raster src (kmeans_cell lloyd n seed) s
   = inl (ValueError invalid_n_clusters)) /\
  ((0 < length (valid_sample_view src) < n)%nat ->
   on_raster src (kmeans_cell lloyd n seed) s
   = inl (ValueError too_few_samples)).
Proof.
  rewrite on_raster_run, (kmeans_cell_run lloyd n seed _ _ (array_of_loaded src s)).
  simpl samples. rewrite remove_nan_nodata_to_nan.
  unfold sklearn.KMeans_fit. split.
  - intros ->. reflexivity.
  - intros [H0 Hlt].
    destruct (Nat.eqb_spec n 0) as [|_]; [lia|].
    destruct (Nat.eqb_spec (length (valid_sample_view src)) 0) as [|_]; [lia|].
    destruct (Nat.ltb_spec (length (valid_sample_view src)) n) as [_|]; [|lia].
    reflexivity.
Qed.

(** Five clusters on a raster of four samples. *)
Lemma kmeans_needs_enough_samples_witness :
  on_raster raster_constant (kmeans_cell (fun _ _ X => X) 5 42) empty
  = inl (ValueError too_few_samples).
Proof.
  apply (proj2 (kmeans_needs_enough_samples (fun _ _ X => X)
                  raster_constant 5 42 empty)).
  simpl. lia.
Defined.
